(** * Dictation daemon: audio buffering, transcription scheduling, commands

    A shallow embedding of [modules/nixos/scripts/dictation/daemon.py] and
    [modules/nixos/scripts/dictation/client.py].

    Conventions of the embedding.
    - A Python [str] is a [string]; each character stands for the code point
      of the same number (0..255).  [str.strip] is given with Python's
      whitespace set on that range; [str.upper] is given on ASCII letters and
      the statements that use it ask for an ASCII argument.
    - A numpy [float32] array is a [list Q].  The only arithmetic the daemon
      does on samples is [int16 / 32768.0], which is exact, and
      [len(queue) * 0.5 >= 2.0], which is exact as well.
    - The [collections.deque] is a [list] with the oldest chunk first.
    - What the daemon does to the outside world (stdout, the status file,
      [wtype], the speech model, [time.sleep], the connection) is recorded as
      a list of [effect]s, oldest first.  What the outside world answers is
      read from an [Env]. *)

From Stdlib Require Import String Ascii List ZArith QArith Qround Bool Lia
  PeanoNat.
Import ListNotations.
Close Scope Q_scope.
Local Open Scope nat_scope.
Local Open Scope string_scope.

(** ** Python strings *)

Module PyStr.

(** [str.isspace] on one character, for code points below 256:
    U+0009..U+000D, U+001C..U+001F, U+0020, U+0085, U+00A0. *)
Definition isspace (c : ascii) : bool :=
  let n := nat_of_ascii c in
  (((9 <=? n) && (n <=? 13)) || ((28 <=? n) && (n <=? 31))
   || (n =? 32) || (n =? 133) || (n =? 160))%nat.

Fixpoint lstrip (s : string) : string :=
  match s with
  | EmptyString => EmptyString
  | String c r => if isspace c then lstrip r else s
  end.

Fixpoint rstrip (s : string) : string :=
  match s with
  | EmptyString => EmptyString
  | String c r =>
      let r' := rstrip r in
      if isspace c && (r' =? "") then EmptyString else String c r'
  end.

(** [s.strip()] *)
Definition strip (s : string) : string := rstrip (lstrip s).

Definition is_ascii_char (c : ascii) : bool := (nat_of_ascii c <? 128)%nat.

Fixpoint isascii (s : string) : bool :=
  match s with
  | EmptyString => true
  | String c r => is_ascii_char c && isascii r
  end.

Definition upper_char (c : ascii) : ascii :=
  let n := nat_of_ascii c in
  if ((97 <=? n) && (n <=? 122))%nat then ascii_of_nat (n - 32) else c.

(** [s.upper()] for an ASCII [s], that is with [isascii s = true].  On
    other characters Python does more (it sends e-acute to E-acute and the
    sharp s to SS); every statement that reads the result of [upper] asks
    for [isascii]. *)
Fixpoint upper (s : string) : string :=
  match s with
  | EmptyString => EmptyString
  | String c r => String (upper_char c) (upper r)
  end.

(** [str(b)] for a [bool]. *)
Definition str_of_bool (b : bool) : string := if b then "True" else "False".

(** Python truthiness of a [str]. *)
Definition truthy (s : string) : bool := negb (s =? "").

End PyStr.

(** ** Results of fallible code *)

(** A call returns, raises an [Exception] (carried as its [str(e)]), or
    leaves through [sys.exit(code)]. *)
Inductive outcome (A : Type) : Type :=
| Ret (a : A)
| Raise (e : string)
| Exit (code : Z).
Arguments Ret {A} a.
Arguments Raise {A} e.
Arguments Exit {A} code.

(** ** The daemon *)

Module Daemon.
Import PyStr.

Definition SOCKET_PATH : string := "/tmp/dictation_daemon.sock".
Definition STATUS_FILE : string := "/tmp/dictation_status.json".
Definition SAMPLE_RATE : Z := 16000.
Definition MODEL_SIZE : string := "small".
Definition CHUNK_DURATION : Q := (1 # 2)%Q.
(** [int(SAMPLE_RATE * CHUNK_DURATION)] *)
Definition CHUNK_SIZE : Z := Qfloor (inject_Z SAMPLE_RATE * CHUNK_DURATION)%Q.

(** A chunk of normalised samples. *)
Definition audio : Type := list Q.

(** [self.status]: the dict with keys "active", "text", "error". *)
Record Status : Type := mkStatus {
  st_active : bool;
  st_text : string;
  st_error : option string
}.

(** The fields of [DictationDaemon] that the code reads after [__init__]. *)
Record State : Type := mkState {
  active : bool;
  audio_queue : list audio;
  status : Status;
  stop_event : bool
}.

Inductive effect : Type :=
| Print (line : string)        (* print(line) on stdout *)
| Dump (st : Status)           (* open(STATUS_FILE, "w"); json.dump(st, f) *)
| Wtype (text : string)        (* subprocess.run(["wtype", text]) *)
| Transcribe (a : audio)       (* self.model.transcribe(a, ...) *)
| Sleep                        (* time.sleep(0.1) *)
| Close.                       (* conn.close() *)

(** What the collaborators answer. *)
Record Env : Type := mkEnv {
  (* os.environ.get("USE_CUDA") == "1" *)
  use_cuda : bool;
  (* WhisperModel(...): None when it loads, the error otherwise *)
  load : option string;
  (* model.transcribe and the iteration over its segments: the segment
     texts in order, or the error raised *)
  transcribe : audio -> outcome (list string);
  (* subprocess.run(["wtype", text]): None when it returns *)
  wtype : string -> option string;
  (* the open/json.dump block: None when it returns *)
  write_status : Status -> option string
}.

(** State, effect log and exceptions. *)
Definition M (A : Type) : Type := State -> outcome A * State * list effect.

Definition ret {A} (a : A) : M A := fun d => (Ret a, d, []).

Definition bind {A B} (m : M A) (k : A -> M B) : M B :=
  fun d =>
    match m d with
    | (Ret a, d1, w1) => let '(r, d2, w2) := k a d1 in (r, d2, (w1 ++ w2)%list)
    | (Raise e, d1, w1) => (Raise e, d1, w1)
    | (Exit c, d1, w1) => (Exit c, d1, w1)
    end.

Definition emit (e : effect) : M unit := fun d => (Ret tt, d, [e]).
Definition exit {A} (c : Z) : M A := fun d => (Exit c, d, []).
Definition gets {A} (f : State -> A) : M A := fun d => (Ret (f d), d, []).
Definition modify (f : State -> State) : M unit := fun d => (Ret tt, f d, []).
Definition lift {A} (o : outcome A) : M A := fun d => (o, d, []).

(** [try: m  except Exception as e: h e]; a [sys.exit] passes through. *)
Definition try_except {A} (m : M A) (h : string -> M A) : M A :=
  fun d =>
    match m d with
    | (Raise e, d1, w1) => let '(r, d2, w2) := h e d1 in (r, d2, (w1 ++ w2)%list)
    | other => other
    end.

(** [try: m  finally: f] *)
Definition try_finally {A} (m : M A) (f : M unit) : M A :=
  fun d =>
    let '(r, d1, w1) := m d in
    match f d1 with
    | (Ret _, d2, w2) => (r, d2, (w1 ++ w2)%list)
    | (Raise e, d2, w2) => (Raise e, d2, (w1 ++ w2)%list)
    | (Exit c, d2, w2) => (Exit c, d2, (w1 ++ w2)%list)
    end.

Declare Scope py_scope.
Delimit Scope py_scope with py.
Notation "x <- m ;; k" := (bind m (fun x => k))
  (at level 61, m at next level, right associativity) : py_scope.
Notation "m ;; k" := (bind m (fun _ => k))
  (at level 61, right associativity) : py_scope.
Local Open Scope py_scope.

Definition set_active (b : bool) (d : State) : State :=
  mkState b (audio_queue d) (status d) (stop_event d).
Definition set_queue (q : list audio) (d : State) : State :=
  mkState (active d) q (status d) (stop_event d).
Definition set_status (st : Status) (d : State) : State :=
  mkState (active d) (audio_queue d) st (stop_event d).

(** The three assignments at the head of [update_status]. *)
Definition merge_status (st : Status) (a : option bool) (t e : option string)
  : Status :=
  let st1 := match a with
             | Some v => mkStatus v (st_text st) (st_error st)
             | None => st
             end in
  let st2 := match t with
             | Some v => mkStatus (st_active st1) v (st_error st1)
             | None => st1
             end in
  match e with
  | Some v => mkStatus (st_active st2) (st_text st2) (Some v)
  | None => st2
  end.

Section WithEnv.
Variable env : Env.

Definition DEVICE : string := if use_cuda env then "cuda" else "cpu".

Definition update_status (a : option bool) (t e : option string) : M unit :=
  st <- gets (fun d => merge_status (status d) a t e) ;;
  modify (set_status st) ;;
  emit (Dump st) ;;
  match write_status env st with
  | None => ret tt
  | Some err => emit (Print ("Failed to write status: " ++ err))
  end.

(** [__init__]: the fresh object, then [update_status(active=False, text="")]. *)
Definition fresh : State :=
  mkState false [] (mkStatus false "" None) false.

Definition init : outcome unit * State * list effect :=
  update_status (Some false) (Some "") None fresh.

Definition load_model : M unit :=
  emit (Print ("Loading model (" ++ MODEL_SIZE ++ ") on " ++ DEVICE ++ "...")) ;;
  match load env with
  | None => emit (Print "Model loaded.")
  | Some err =>
      emit (Print ("Failed to load model: " ++ err)) ;;
      update_status None None (Some err) ;;
      exit 1
  end.

Definition type_text (text : string) : M unit :=
  if truthy text then
    emit (Wtype text) ;;
    match wtype env text with
    | None => ret tt
    | Some err => emit (Print ("Failed to type text: " ++ err))
    end
  else ret tt.

(** [np.frombuffer(in_data, dtype=np.int16).astype(np.float32) / 32768.0],
    with [in_data] given as its int16 frames. *)
Definition normalise (in_data : list Z) : audio :=
  map (fun s => Qmake s 32768) in_data.

Inductive pa_flag : Type := paContinue.

Definition audio_callback (in_data : list Z) : M (list Z * pa_flag) :=
  a <- gets active ;;
  (if a
   then modify (fun d => set_queue (audio_queue d ++ [normalise in_data])%list d)
   else ret tt) ;;
  ret (in_data, paContinue).

(** [len(self.audio_queue) * CHUNK_DURATION >= 2.0] *)
Definition enough (q : list audio) : bool :=
  Qle_bool 2 (inject_Z (Z.of_nat (length q)) * CHUNK_DURATION)%Q.

(** [np.concatenate(list(q))] *)
Definition concatenate (q : list audio) : audio := concat q.

(** One pass through the body of the [while] of [transcription_loop]. *)
Definition loop_body : M unit :=
  a <- gets active ;;
  q <- gets audio_queue ;;
  if a && negb (Nat.eqb (length q) 0) then
    if enough q then
      audio_data <- gets (fun d => concatenate (audio_queue d)) ;;
      modify (set_queue []) ;;
      emit (Transcribe audio_data) ;;
      segments <- lift (transcribe env audio_data) ;;
      let text_segment := fold_left append segments "" in
      let text_segment := strip text_segment in
      if truthy text_segment then
        emit (Print ("Transcribed: " ++ text_segment)) ;;
        type_text (text_segment ++ " ") ;;
        update_status None (Some text_segment) None
      else ret tt
    else ret tt
  else emit Sleep.

(** How a run of the loop ends. *)
Inductive loop_end : Type := Stopped | OutOfFuel.

(** [transcription_loop], alone on the state, for at most [fuel] passes. *)
Fixpoint transcription_loop (fuel : nat) : M loop_end :=
  match fuel with
  | O => ret OutOfFuel
  | S n =>
      s <- gets stop_event ;;
      if s then ret Stopped else (loop_body ;; transcription_loop n)
  end.

(** The body of the accept loop of [run], from [conn.recv] to
    [conn.close()]; [received] is what [conn.recv(1024).decode()] gives. *)
Definition handle_connection (received : outcome string) : M unit :=
  try_finally
    (try_except
       (text <- lift received ;;
        let data := strip text in
        if data =? "START" then
          emit (Print "Command: START") ;;
          modify (set_active true) ;;
          modify (set_queue []) ;;
          update_status (Some true) None None
        else if data =? "STOP" then
          emit (Print "Command: STOP") ;;
          modify (set_active false) ;;
          update_status (Some false) None None
        else if data =? "TOGGLE" then
          modify (fun d => set_active (negb (active d)) d) ;;
          modify (set_queue []) ;;
          a <- gets active ;;
          update_status (Some a) None None ;;
          a' <- gets active ;;
          emit (Print ("Command: TOGGLE -> " ++ str_of_bool a'))
        else ret tt)
       (fun e => emit (Print ("Socket error: " ++ e))))
    (emit Close).

(** *** The three execution contexts, one event at a time

    [Connection]: the accept loop takes one connection and handles it.
    [Block]: the capture backend delivers one buffer to [audio_callback].
    [Tick]: the transcription thread makes one pass through its [while]. *)

Inductive thread : Type :=
| Running
| Finished              (* the [while] saw [stop_event] set *)
| Died (e : string).    (* an exception left [transcription_loop] *)

Record World : Type := mkWorld {
  daemon : State;
  scheduler : thread;
  log : list effect
}.

Inductive event : Type :=
| Connection (received : outcome string)
| Block (in_data : list Z)
| Tick.

Definition tick (w : World) : World :=
  match scheduler w with
  | Running =>
      if stop_event (daemon w) then mkWorld (daemon w) Finished (log w)
      else
        match loop_body (daemon w) with
        | (Ret _, d, out) => mkWorld d Running (log w ++ out)%list
        | (Raise e, d, out) => mkWorld d (Died e) (log w ++ out)%list
        | (Exit _, d, out) => mkWorld d Finished (log w ++ out)%list
        end
  | _ => w
  end.

Definition step (w : World) (ev : event) : World :=
  match ev with
  | Connection received =>
      let '(_, d, out) := handle_connection received (daemon w) in
      mkWorld d (scheduler w) (log w ++ out)%list
  | Block in_data =>
      let '(_, d, out) := audio_callback in_data (daemon w) in
      mkWorld d (scheduler w) (log w ++ out)%list
  | Tick => tick w
  end.

Definition run_events (evs : list event) (w : World) : World :=
  fold_left step evs w.

End WithEnv.

(** Readings of an effect log. *)
Definition invocations (out : list effect) : list audio :=
  flat_map (fun e => match e with Transcribe a => [a] | _ => [] end) out.
Definition typed (out : list effect) : list string :=
  flat_map (fun e => match e with Wtype t => [t] | _ => [] end) out.
Definition published (out : list effect) : list Status :=
  flat_map (fun e => match e with Dump st => [st] | _ => [] end) out.

(** Projections of a run. *)
Definition result {A} (r : outcome A * State * list effect) : outcome A :=
  fst (fst r).
Definition after {A} (r : outcome A * State * list effect) : State :=
  snd (fst r).
Definition output {A} (r : outcome A * State * list effect) : list effect :=
  snd r.

(** *** The commands, and the table of section 4.3 of the specification *)

Inductive Command : Type := START | STOP | TOGGLE.

Definition token (c : Command) : string :=
  match c with
  | START => "START"
  | STOP => "STOP"
  | TOGGLE => "TOGGLE"
  end.

(** Column "Effect on recording" of the table. *)
Definition spec_recording (c : Command) (recording : bool) : bool :=
  match c with
  | START => true
  | STOP => false
  | TOGGLE => negb recording
  end.

(** Column "Effect on pendingAudio" of the table. *)
Definition spec_pending (c : Command) (pending : list audio) : list audio :=
  match c with
  | START => []
  | STOP => pending
  | TOGGLE => []
  end.

(** *** The drain of the queue against the capture callback

    Lines 95 and 96 of [transcription_loop] are two statements, and
    [audio_callback] runs on the capture thread; none of them takes
    [self.lock].  [Concatenate] is line 95 ([chunks] is the value of
    [list(self.audio_queue)], of which [audio_data] is the concatenation),
    [Clear] is line 96, [Append] is one call of [audio_callback]. *)

Inductive action : Type :=
| Concatenate
| Clear
| Append (in_data : list Z).

Record Threads : Type := mkThreads {
  shared : State;
  chunks : option (list audio)
}.

Definition act (t : Threads) (a : action) : Threads :=
  match a with
  | Concatenate => mkThreads (shared t) (Some (audio_queue (shared t)))
  | Clear => mkThreads (set_queue [] (shared t)) (chunks t)
  | Append in_data =>
      mkThreads (after (audio_callback in_data (shared t))) (chunks t)
  end.

Definition run_actions (tr : list action) (t : Threads) : Threads :=
  fold_left act tr t.

(** Every order in which two threads can run their statements. *)
Fixpoint interleavings (xs : list action) : list action -> list (list action) :=
  match xs with
  | [] => fun ys => [ys]
  | x :: xs' =>
      fix against (ys : list action) : list (list action) :=
        match ys with
        | [] => [x :: xs']
        | y :: ys' =>
            (map (cons x) (interleavings xs' ys)
             ++ map (cons y) (against ys'))%list
        end
  end.

End Daemon.

(** ** The client *)

Module Client.
Import PyStr.

Definition SOCKET_PATH : string := "/tmp/dictation_daemon.sock".

Inductive stream : Type := stdout | stderr.

Inductive effect : Type :=
| Write (to : stream) (line : string)    (* print(line, file=to) *)
| Connect (path : string)                (* client.connect(path) *)
| Sendall (data : string)                (* client.sendall(data) *)
| Close.                                 (* client.close() *)

(** What each socket call answers: None when it returns, the error
    otherwise. *)
Record Net : Type := mkNet {
  socket_err : option string;
  connect_err : option string;
  sendall_err : option string;
  close_err : option string
}.

Definition C (A : Type) : Type := outcome A * list effect.

Definition ret {A} (a : A) : C A := (Ret a, []).

Definition bind {A B} (m : C A) (k : A -> C B) : C B :=
  match m with
  | (Ret a, w1) => let '(r, w2) := k a in (r, (w1 ++ w2)%list)
  | (Raise e, w1) => (Raise e, w1)
  | (Exit c, w1) => (Exit c, w1)
  end.

Definition try_except {A} (m : C A) (h : string -> C A) : C A :=
  match m with
  | (Raise e, w1) => let '(r, w2) := h e in (r, (w1 ++ w2)%list)
  | other => other
  end.

Definition emit (e : effect) : C unit := (Ret tt, [e]).
Definition exit {A} (c : Z) : C A := (Exit c, []).

(** One socket call: its effect, if it gets that far, and its answer. *)
Definition call (answer : option string) (done : list effect) : C unit :=
  match answer with
  | None => (Ret tt, done)
  | Some e => (Raise e, [])
  end.

Declare Scope client_scope.
Notation "m ;; k" := (bind m (fun _ => k))
  (at level 61, right associativity) : client_scope.
Local Open Scope client_scope.

(** [print(line)]: on [sys.stdout]. *)
Definition print (line : string) : C unit := emit (Write stdout line).

Section WithNet.
Variable net : Net.

Definition send_command (cmd : string) : C unit :=
  try_except
    (call (socket_err net) [] ;;
     call (connect_err net) [Connect SOCKET_PATH] ;;
     call (sendall_err net) [Sendall cmd] ;;
     call (close_err net) [Close])
    (fun e =>
       print ("Failed to connect to daemon: " ++ e) ;;
       exit 1).

(** The [__main__] block; [argv] is [sys.argv]. *)
Definition main (argv : list string) : C unit :=
  match argv with
  | _ :: arg :: _ => send_command (upper arg)
  | _ =>
      print "Usage: client.py [START|STOP|TOGGLE]" ;;
      exit 1
  end.

End WithNet.

(** The exit status of the interpreter. *)
Definition exit_code (r : C unit) : Z :=
  match fst r with
  | Ret _ => 0
  | Raise _ => 1
  | Exit c => c
  end.

Definition written (to : stream) (out : list effect) : list string :=
  flat_map (fun e => match e with
                     | Write stdout l =>
                         match to with stdout => [l] | stderr => [] end
                     | Write stderr l =>
                         match to with stderr => [l] | stdout => [] end
                     | _ => []
                     end) out.

Definition sent (out : list effect) : list string :=
  flat_map (fun e => match e with Sendall d => [d] | _ => [] end) out.

End Client.

(** ** Vocabulary of the statements *)

Import PyStr Daemon.
Local Open Scope nat_scope.

(** The text the scheduler makes of the segments. *)
Definition heard (segments : list string) : string :=
  strip (fold_left append segments "").

(** A command sent as its own token. *)
Definition send (c : Command) : event := Connection (Ret (token c)).

(** [n] passes of the scheduler in a row. *)
Definition ticks (n : nat) : list event := repeat Tick n.

(** The scheduler where the scenarios of the threshold look at it:
    recording, not stopped, alive, with a given queue and the engine calls
    made so far. *)
Definition stage (w : World) (q : list audio) (calls : list audio) : Prop :=
  active (daemon w) = true /\
  stop_event (daemon w) = false /\
  scheduler w = Running /\
  audio_queue (daemon w) = q /\
  invocations (log w) = calls.

(** The error of the first socket call of the client that raises, if one
    does. *)
Definition failure (net : Client.Net) : option string :=
  match Client.socket_err net with
  | Some e => Some e
  | None =>
      match Client.connect_err net with
      | Some e => Some e
      | None =>
          match Client.sendall_err net with
          | Some e => Some e
          | None => Client.close_err net
          end
      end
  end.

(** *** Sample collaborators and states *)

(** An engine that hears nothing; everything else works. *)
Definition quiet_env : Env :=
  mkEnv false None (fun _ => Ret []) (fun _ => None) (fun _ => None).

(** An engine that hears "hello world". *)
Definition hello_env : Env :=
  mkEnv false None (fun _ => Ret ["hello world"]) (fun _ => None)
        (fun _ => None).

(** An engine that raises. *)
Definition broken_env : Env :=
  mkEnv false None (fun _ => Raise "boom") (fun _ => None) (fun _ => None).

(** Recording, with four chunks queued. *)
Definition recording_four : State :=
  mkState true (map normalise [[1%Z]; [2%Z]; [3%Z]; [4%Z]])
          (mkStatus true "" None) false.

(** Not recording, with an error and a text in the status. *)
Definition idle_with_error : State :=
  mkState false [] (mkStatus false "hi" (Some "no model")) false.

(** A drain with a delivery between its two steps. *)
Definition gap_trace : list action :=
  [Concatenate; Append [7%Z]; Clear].

(** A daemon that does not listen, and one that does. *)
Definition refused : Client.Net :=
  Client.mkNet None (Some "[Errno 111] Connection refused") None None.
Definition listening : Client.Net :=
  Client.mkNet None None None None.

(** *** Further vocabulary *)

(** A text made of whitespace only (the empty text included). *)
Fixpoint blank (s : string) : bool :=
  match s with
  | EmptyString => true
  | String c r => isspace c && blank r
  end.

(** The last character of the text that starts with [c] and goes on with
    [r]. *)
Fixpoint last_of (c : ascii) (r : string) : ascii :=
  match r with
  | EmptyString => c
  | String c' r' => last_of c' r'
  end.

(** Neither the first nor the last character of [t] is whitespace (the
    empty text has neither). *)
Definition ends_clean (t : string) : bool :=
  match t with
  | EmptyString => true
  | String c r => negb (isspace c) && negb (isspace (last_of c r))
  end.

(** "Trimmed of surrounding whitespace", in the words of the
    specification and not through [strip]: [t] is what is left of [s] when
    the whitespace before and after it is taken away. *)
Definition trimmed (s t : string) : Prop :=
  exists pre post,
    s = pre ++ t ++ post /\
    blank pre = true /\ blank post = true /\ ends_clean t = true.

(** The chunks that the deliveries among [evs] carry, in order. *)
Definition delivered (evs : list event) : list audio :=
  flat_map (fun ev => match ev with
                      | Block in_data => [normalise in_data]
                      | _ => []
                      end) evs.

(** No connection among the events. *)
Definition no_connection (evs : list event) : bool :=
  forallb (fun ev => match ev with Connection _ => false | _ => true end) evs.

(** Every sample the engine was given so far, followed by every sample
    still pending. *)
Definition heard_and_pending (w : World) : audio :=
  (concat (invocations (log w)) ++ concat (audio_queue (daemon w)))%list.

(** A frame of the [paInt16] stream. *)
Definition int16 (s : Z) : Prop := (-32768 <= s <= 32767)%Z.

(** [__init__], then [load_model]: the start of [daemon.run()] after
    [DictationDaemon()]. *)
Definition startup (env : Env) : outcome unit * State * list effect :=
  let '(_, d, out) := init env in
  let '(r, d', out') := load_model env d in
  (r, d', (out ++ out')%list).

(** *** A command against the capture callback

    The statements of a START (lines 146-147) and of a TOGGLE (lines
    155-156) that touch [active] and [audio_queue], against one call of
    [audio_callback] on the capture thread.  The callback is two steps
    there: the test of [self.active] (line 76) and, when the test passed,
    the append of the converted block (line 79); the conversion between
    them is local to the capture thread.  None of the statements takes
    [self.lock]. *)

Inductive stmt : Type :=
| SetActive (b : bool)             (* self.active = b *)
| InvertActive                     (* self.active = not self.active *)
| ClearQueue                       (* self.audio_queue.clear() *)
| TestActive                       (* if self.active: *)
| AppendTested (in_data : list Z). (* self.audio_queue.append(audio_data) *)

(** The shared object, and whether the test of the callback passed. *)
Record Racing : Type := mkRacing {
  mem : State;
  passed : bool
}.

Definition exec (x : Racing) (s : stmt) : Racing :=
  match s with
  | SetActive b => mkRacing (set_active b (mem x)) (passed x)
  | InvertActive =>
      mkRacing (set_active (negb (active (mem x))) (mem x)) (passed x)
  | ClearQueue => mkRacing (set_queue [] (mem x)) (passed x)
  | TestActive => mkRacing (mem x) (active (mem x))
  | AppendTested in_data =>
      if passed x
      then mkRacing
             (set_queue (audio_queue (mem x) ++ [normalise in_data])%list
                        (mem x))
             (passed x)
      else x
  end.

Definition run_stmts (tr : list stmt) (x : Racing) : Racing :=
  fold_left exec tr x.

(** Every order in which two threads can run their statements. *)
Fixpoint merges {A : Type} (xs : list A) : list A -> list (list A) :=
  match xs with
  | [] => fun ys => [ys]
  | x :: xs' =>
      fix against (ys : list A) : list (list A) :=
        match ys with
        | [] => [x :: xs']
        | y :: ys' =>
            (map (cons x) (merges xs' ys) ++ map (cons y) (against ys'))%list
        end
  end.

Definition START_stmts : list stmt := [SetActive true; ClearQueue].
Definition TOGGLE_stmts : list stmt := [InvertActive; ClearQueue].
Definition CALLBACK_stmts (in_data : list Z) : list stmt :=
  [TestActive; AppendTested in_data].

(** Where a statement stands in an order. *)
Definition is_assign (s : stmt) : bool :=
  match s with SetActive _ | InvertActive => true | _ => false end.
Definition is_clear (s : stmt) : bool :=
  match s with ClearQueue => true | _ => false end.
Definition is_test (s : stmt) : bool :=
  match s with TestActive => true | _ => false end.
Definition is_append (s : stmt) : bool :=
  match s with AppendTested _ => true | _ => false end.

Fixpoint index (p : stmt -> bool) (tr : list stmt) : nat :=
  match tr with
  | [] => 0
  | s :: r => if p s then 0 else S (index p r)
  end.

(** The first statement with [p] comes before the first with [q]. *)
Definition before (p q : stmt -> bool) (tr : list stmt) : bool :=
  index p tr <? index q tr.

(** *** More sample collaborators *)

(** Nothing works: the model does not load, the engine raises, [wtype] is
    missing and the status file cannot be written. *)
Definition hostile_env : Env :=
  mkEnv false (Some "no such model") (fun _ => Raise "boom")
        (fun _ => Some "[Errno 2] No such file or directory: 'wtype'")
        (fun _ => Some "[Errno 13] Permission denied").

(** An engine whose segments come with whitespace around the words. *)
Definition padded_env : Env :=
  mkEnv false None (fun _ => Ret [" hello"; " world "]) (fun _ => None)
        (fun _ => None).

(** The command is sent, and closing the socket then raises. *)
Definition close_fails : Client.Net :=
  Client.mkNet None None None (Some "[Errno 9] Bad file descriptor").

(** * Properties *)

(** ** Tools *)

Lemma published_app (a b : list effect) :
  published (a ++ b) = (published a ++ published b)%list.
Proof. apply flat_map_app. Qed.

Lemma invocations_app (a b : list effect) :
  invocations (a ++ b) = (invocations a ++ invocations b)%list.
Proof. apply flat_map_app. Qed.

Lemma typed_app (a b : list effect) :
  typed (a ++ b) = (typed a ++ typed b)%list.
Proof. apply flat_map_app. Qed.

Lemma run_events_app (env : Env) (xs ys : list event) (w : World) :
  run_events env (xs ++ ys) w = run_events env ys (run_events env xs w).
Proof. apply fold_left_app. Qed.

(** Unfolds the monad down to pairs. *)
Ltac unfold_py :=
  cbv [handle_connection loop_body audio_callback update_status type_text
       load_model try_finally try_except bind ret emit exit gets
       modify lift result after output
       set_active set_queue set_status active audio_queue status stop_event].

(** Evaluates [strip] and the comparisons on a literal token. *)
Ltac eval_token :=
  repeat match goal with
         | |- context [strip ?s] =>
             let v := eval vm_compute in (strip s) in
             change (strip s) with v
         | |- context [String.eqb ?a ?b] =>
             let v := eval vm_compute in (String.eqb a b) in
             change (String.eqb a b) with v
         end.

(** Splits on whatever the environment answers. *)
Ltac split_env :=
  repeat match goal with
         | |- context [write_status ?e ?s] =>
             destruct (write_status e s); cbn
         | |- context [wtype ?e ?s] => destruct (wtype e s); cbn
         end.

(** [update_status] never fails, whatever the status file does. *)
Lemma update_status_runs (env : Env) (a : option bool) (t e : option string)
  (d : State) :
  result (update_status env a t e d) = Ret tt /\
  after (update_status env a t e d) =
    set_status (merge_status (status d) a t e) d /\
  published (output (update_status env a t e d)) =
    [merge_status (status d) a t e] /\
  invocations (output (update_status env a t e d)) = [] /\
  typed (output (update_status env a t e d)) = [].
Proof.
  unfold update_status, bind, gets, modify, emit, ret, result, after, output.
  cbn. destruct (write_status env _); cbn; repeat split; reflexivity.
Qed.

(** What the three commands do, with everything they print and write. *)
Lemma handle_START (env : Env) (d : State) :
  after (handle_connection env (Ret "START") d) =
    mkState true [] (mkStatus true (st_text (status d)) (st_error (status d)))
            (stop_event d) /\
  published (output (handle_connection env (Ret "START") d)) =
    [mkStatus true (st_text (status d)) (st_error (status d))].
Proof.
  destruct d as [a q st s]. unfold_py. eval_token. cbn.
  split_env; split; reflexivity.
Qed.

Lemma handle_STOP (env : Env) (d : State) :
  after (handle_connection env (Ret "STOP") d) =
    mkState false (audio_queue d)
            (mkStatus false (st_text (status d)) (st_error (status d)))
            (stop_event d) /\
  published (output (handle_connection env (Ret "STOP") d)) =
    [mkStatus false (st_text (status d)) (st_error (status d))].
Proof.
  destruct d as [a q st s]. unfold_py. eval_token. cbn.
  split_env; split; reflexivity.
Qed.

Lemma handle_TOGGLE (env : Env) (d : State) :
  after (handle_connection env (Ret "TOGGLE") d) =
    mkState (negb (active d)) []
            (mkStatus (negb (active d)) (st_text (status d))
                      (st_error (status d)))
            (stop_event d) /\
  published (output (handle_connection env (Ret "TOGGLE") d)) =
    [mkStatus (negb (active d)) (st_text (status d)) (st_error (status d))].
Proof.
  destruct d as [a q st s]. unfold_py. eval_token. cbn.
  split_env; split; reflexivity.
Qed.

Lemma step_send (env : Env) (c : Command) (w : World) :
  active (daemon (step env w (send c))) = spec_recording c (active (daemon w))
  /\ audio_queue (daemon (step env w (send c))) =
       spec_pending c (audio_queue (daemon w)).
Proof.
  unfold step, send.
  destruct c; cbn [token].
  - pose proof (handle_START env (daemon w)) as [H _].
    unfold after in H.
    destruct (handle_connection env (Ret "START") (daemon w)) as [[r d] out].
    cbn in *. subst d. split; reflexivity.
  - pose proof (handle_STOP env (daemon w)) as [H _].
    unfold after in H.
    destruct (handle_connection env (Ret "STOP") (daemon w)) as [[r d] out].
    cbn in *. subst d. split; reflexivity.
  - pose proof (handle_TOGGLE env (daemon w)) as [H _].
    unfold after in H.
    destruct (handle_connection env (Ret "TOGGLE") (daemon w)) as [[r d] out].
    cbn in *. subst d. split; reflexivity.
Qed.

(** ** One pass of the scheduler *)

Lemma enough_iff (q : list audio) : enough q = true <-> 4 <= length q.
Proof.
  unfold enough, CHUNK_DURATION. rewrite Qle_bool_iff.
  unfold Qle, Qmult, inject_Z. cbn [Qnum Qden]. lia.
Qed.

Lemma enough_leb (q : list audio) : enough q = (4 <=? length q).
Proof.
  destruct (4 <=? length q) eqn:E.
  - apply enough_iff, Nat.leb_le, E.
  - destruct (enough q) eqn:F; [|reflexivity].
    apply enough_iff, Nat.leb_le in F. congruence.
Qed.

Lemma truthy_sep (s : string) : truthy (s ++ " ") = true.
Proof. destruct s; reflexivity. Qed.

Lemma type_text_runs (env : Env) (text : string) (d : State) :
  truthy text = true ->
  type_text env text d =
    (Ret tt, d,
     Wtype text ::
       match wtype env text with
       | None => []
       | Some err => [Print ("Failed to type text: " ++ err)]
       end).
Proof.
  intro H. unfold type_text. rewrite H. unfold bind, emit, ret.
  destruct (wtype env text); reflexivity.
Qed.

(** The pass does nothing to the state when recording is off, the queue is
    empty or the queue is short; it sleeps in the first two cases only. *)
Lemma loop_body_idle (env : Env) (d : State) :
  active d && (4 <=? length (audio_queue d)) = false ->
  loop_body env d =
    (Ret tt, d,
     if active d && negb (length (audio_queue d) =? 0)%nat
     then [] else [Sleep]).
Proof.
  destruct d as [a q st s]. cbn [active audio_queue]. intro H.
  unfold loop_body, bind, gets. cbn [active audio_queue].
  rewrite enough_leb.
  destruct a; cbn [andb] in *; [|reflexivity].
  rewrite H. destruct q; reflexivity.
Qed.

Lemma long_queue_nonempty (q : list audio) :
  (4 <=? length q) = true -> negb (length q =? 0)%nat = true.
Proof.
  intro H. apply Nat.leb_le in H. destruct q; [cbn in H; lia|reflexivity].
Qed.

(** The engine raises: the queue is already cleared, and the exception
    leaves the pass. *)
Lemma loop_body_raise (env : Env) (d : State) (e : string) :
  active d = true ->
  (4 <=? length (audio_queue d)) = true ->
  transcribe env (concatenate (audio_queue d)) = Raise e ->
  loop_body env d =
    (Raise e, set_queue [] d, [Transcribe (concatenate (audio_queue d))]).
Proof.
  destruct d as [a q st s]. cbn [active audio_queue]. intros -> L T.
  unfold loop_body, bind, gets, modify, emit, lift.
  cbn [active audio_queue andb]. rewrite enough_leb, L.
  rewrite (long_queue_nonempty q L). cbn [audio_queue]. rewrite T. reflexivity.
Qed.

Lemma loop_body_exit (env : Env) (d : State) (c : Z) :
  active d = true ->
  (4 <=? length (audio_queue d)) = true ->
  transcribe env (concatenate (audio_queue d)) = Exit c ->
  loop_body env d =
    (Exit c, set_queue [] d, [Transcribe (concatenate (audio_queue d))]).
Proof.
  destruct d as [a q st s]. cbn [active audio_queue]. intros -> L T.
  unfold loop_body, bind, gets, modify, emit, lift.
  cbn [active audio_queue andb]. rewrite enough_leb, L.
  rewrite (long_queue_nonempty q L). cbn [audio_queue]. rewrite T. reflexivity.
Qed.

(** The engine returns segments whose text is empty once stripped. *)
Lemma loop_body_silent (env : Env) (d : State) (segments : list string) :
  active d = true ->
  (4 <=? length (audio_queue d)) = true ->
  transcribe env (concatenate (audio_queue d)) = Ret segments ->
  truthy (heard segments) = false ->
  loop_body env d =
    (Ret tt, set_queue [] d, [Transcribe (concatenate (audio_queue d))]).
Proof.
  destruct d as [a q st s]. cbn [active audio_queue]. intros -> L T H.
  unfold loop_body, bind, gets, modify, emit, lift, ret.
  cbn [active audio_queue andb]. rewrite enough_leb, L.
  rewrite (long_queue_nonempty q L). cbn [audio_queue]. rewrite T.
  fold (heard segments). rewrite H. reflexivity.
Qed.

(** The engine returns segments with some text. *)
Lemma loop_body_text (env : Env) (d : State) (segments : list string) :
  active d = true ->
  (4 <=? length (audio_queue d)) = true ->
  transcribe env (concatenate (audio_queue d)) = Ret segments ->
  truthy (heard segments) = true ->
  let text := heard segments in
  let st := merge_status (status d) None (Some text) None in
  loop_body env d =
    (Ret tt, set_status st (set_queue [] d),
     [Transcribe (concatenate (audio_queue d));
      Print ("Transcribed: " ++ text);
      Wtype (text ++ " ")]
     ++ match wtype env (text ++ " ") with
        | None => []
        | Some err => [Print ("Failed to type text: " ++ err)]
        end
     ++ Dump st
     :: match write_status env st with
        | None => []
        | Some err => [Print ("Failed to write status: " ++ err)]
        end)%list.
Proof.
  intros A L T H text st. subst text.
  destruct d as [a q st0 s]. cbn [active audio_queue status] in *. subst a.
  set (text := heard segments) in *.
  unfold loop_body, bind, gets, modify, emit, lift, ret.
  cbn [active audio_queue andb]. rewrite enough_leb, L.
  rewrite (long_queue_nonempty q L). cbn [audio_queue]. rewrite T.
  fold (heard segments). fold text. rewrite H.
  rewrite (type_text_runs env (text ++ " ") _ (truthy_sep text)).
  unfold update_status, bind, gets, modify, emit, ret.
  cbn [status set_queue set_status active audio_queue stop_event].
  fold st.
  destruct (wtype env (text ++ " ")), (write_status env st); reflexivity.
Qed.

(** The queue after one pass of the scheduler is the queue before, or
    empty. *)
Lemma loop_body_queue (env : Env) (d : State) :
  audio_queue (after (loop_body env d)) = audio_queue d \/
  audio_queue (after (loop_body env d)) = [].
Proof.
  destruct (active d && (4 <=? length (audio_queue d))) eqn:G.
  - apply andb_true_iff in G. destruct G as [A L]. right.
    destruct (transcribe env (concatenate (audio_queue d))) as [segs|e|c] eqn:T.
    + destruct (truthy (heard segs)) eqn:H.
      * rewrite (loop_body_text env d segs A L T H). reflexivity.
      * rewrite (loop_body_silent env d segs A L T H). reflexivity.
    + rewrite (loop_body_raise env d e A L T). reflexivity.
    + rewrite (loop_body_exit env d c A L T). reflexivity.
  - left. rewrite (loop_body_idle env d G). reflexivity.
Qed.

(** A pass changes neither [active] nor [stop_event]. *)
Lemma loop_body_flags (env : Env) (d : State) :
  active (after (loop_body env d)) = active d /\
  stop_event (after (loop_body env d)) = stop_event d.
Proof.
  destruct (active d && (4 <=? length (audio_queue d))) eqn:G.
  - apply andb_true_iff in G. destruct G as [A L].
    destruct (transcribe env (concatenate (audio_queue d))) as [segs|e|c] eqn:T.
    + destruct (truthy (heard segs)) eqn:H.
      * rewrite (loop_body_text env d segs A L T H). split; reflexivity.
      * rewrite (loop_body_silent env d segs A L T H). split; reflexivity.
    + rewrite (loop_body_raise env d e A L T). split; reflexivity.
    + rewrite (loop_body_exit env d c A L T). split; reflexivity.
  - rewrite (loop_body_idle env d G). split; reflexivity.
Qed.

(** ** The capture callback *)

Lemma audio_callback_runs (in_data : list Z) (d : State) :
  audio_callback in_data d =
    (Ret (in_data, paContinue),
     (if active d
      then set_queue (audio_queue d ++ [normalise in_data]) d
      else d),
     []).
Proof. destruct d as [[|] q st s]; reflexivity. Qed.




(** ** The command state machine *)

(** C3. For every sequence of commands, from every state: recording after
    the sequence is what the table of section 4.3 gives, command by command,
    and so is pendingAudio (emptied by START and TOGGLE, left as it is by
    STOP); right after a START or a TOGGLE pendingAudio is empty, right
    after a STOP it is what it was, and a pass of the scheduler then leaves
    it alone: it sleeps, without a call to the engine.  Recording is moved
    by the commands only: no delivered block and no pass of the scheduler
    changes it. *)
Theorem commands_follow_table (env : Env) (cs : list Command) (w : World)
  (in_data : list Z) :
  let w' := run_events env (map send cs) w in
  active (daemon w') =
    fold_left (fun r c => spec_recording c r) cs (active (daemon w)) /\
  audio_queue (daemon w') =
    fold_left (fun q c => spec_pending c q) cs (audio_queue (daemon w)) /\
  audio_queue (daemon (step env w' (send START))) = [] /\
  active (daemon (step env w' (send START))) = true /\
  audio_queue (daemon (step env w' (send TOGGLE))) = [] /\
  active (daemon (step env w' (send TOGGLE))) = negb (active (daemon w')) /\
  audio_queue (daemon (step env w' (send STOP))) = audio_queue (daemon w') /\
  active (daemon (step env w' (send STOP))) = false /\
  loop_body env (daemon (step env w' (send STOP))) =
    (Ret tt, daemon (step env w' (send STOP)), [Sleep]) /\
  active (daemon (step env w (Block in_data))) = active (daemon w) /\
  active (daemon (step env w Tick)) = active (daemon w).
Proof.
  cbv zeta. split; [|split].
  - revert w. induction cs as [|c cs IH]; intro w; [reflexivity|].
    cbn [map run_events fold_left]. unfold run_events in IH. rewrite IH.
    destruct (step_send env c w) as [-> _]. reflexivity.
  - revert w. induction cs as [|c cs IH]; intro w; [reflexivity|].
    cbn [map run_events fold_left]. unfold run_events in IH. rewrite IH.
    destruct (step_send env c w) as [_ ->]. reflexivity.
  - set (w' := run_events env (map send cs) w).
    destruct (step_send env START w') as [-> ->].
    destruct (step_send env TOGGLE w') as [-> ->].
    pose proof (step_send env STOP w') as [A Q]. rewrite A, Q.
    repeat split; try reflexivity.
    + rewrite loop_body_idle by (rewrite A; reflexivity).
      rewrite A. reflexivity.
    + cbn [step]. rewrite audio_callback_runs. cbn [daemon].
      destruct (active (daemon w)) eqn:E; [exact E | exact E].
    + cbn [step]. unfold tick. destruct (scheduler w); try reflexivity.
      destruct (stop_event (daemon w)); [reflexivity|].
      pose proof (loop_body_flags env (daemon w)) as [F _]. unfold after in F.
      destruct (loop_body env (daemon w)) as [[o d'] out]. cbn [fst snd] in F.
      destruct o; exact F.
Qed.

(** C8. STOP twice in a row leaves the state (recording, pendingAudio, the
    status with its text and its error, the stop flag) as one STOP leaves
    it. *)
Theorem stop_idempotent (env : Env) (d : State) :
  after (handle_connection env (Ret "STOP")
           (after (handle_connection env (Ret "STOP") d))) =
  after (handle_connection env (Ret "STOP") d).
Proof.
  destruct (handle_STOP env d) as [-> _].
  destruct (handle_STOP env (mkState false (audio_queue d)
     (mkStatus false (st_text (status d)) (st_error (status d)))
     (stop_event d))) as [-> _].
  reflexivity.
Qed.

(** ** The status publisher *)

Lemma merge_status_fields (st : Status) (a : option bool) (t e : option string) :
  st_active (merge_status st a t e) =
    match a with Some v => v | None => st_active st end /\
  st_text (merge_status st a t e) =
    match t with Some v => v | None => st_text st end /\
  st_error (merge_status st a t e) =
    match e with Some v => Some v | None => st_error st end.
Proof. destruct st, a, t, e; repeat split; reflexivity. Qed.

(** What a connection does to the status: nothing, or one publish that
    supplies [active] alone. *)
Lemma handle_connection_status (env : Env) (r : outcome string) (d : State) :
  (status (after (handle_connection env r d)) = status d /\
   published (output (handle_connection env r d)) = []) \/
  (exists b,
     status (after (handle_connection env r d)) =
       merge_status (status d) (Some b) None None /\
     published (output (handle_connection env r d)) =
       [merge_status (status d) (Some b) None None]).
Proof.
  destruct d as [a q st s].
  destruct r as [text|e|c]; unfold_py; cbn; try (left; split; reflexivity).
  set (data := strip text).
  destruct (data =? "START")%string; cbn;
    [right; exists true; split_env; split; reflexivity|].
  destruct (data =? "STOP")%string; cbn;
    [right; exists false; split_env; split; reflexivity|].
  destruct (data =? "TOGGLE")%string; cbn;
    [right; exists (negb a); split_env; split; reflexivity|].
  left; split; reflexivity.
Qed.

(** What a pass of the scheduler does to the status: nothing, or one
    publish that supplies [text] alone. *)
Lemma loop_body_status (env : Env) (d : State) :
  (status (after (loop_body env d)) = status d /\
   published (output (loop_body env d)) = []) \/
  (exists text,
     status (after (loop_body env d)) =
       merge_status (status d) None (Some text) None /\
     published (output (loop_body env d)) =
       [merge_status (status d) None (Some text) None]).
Proof.
  destruct (active d && (4 <=? length (audio_queue d))) eqn:G.
  - apply andb_true_iff in G. destruct G as [A L].
    destruct (transcribe env (concatenate (audio_queue d))) as [segs|e|c] eqn:T.
    + destruct (truthy (heard segs)) eqn:H.
      * right. exists (heard segs).
        rewrite (loop_body_text env d segs A L T H).
        unfold after, output. cbn [fst snd]. split; [reflexivity|].
        rewrite !published_app. cbn.
        destruct (wtype env _), (write_status env _); reflexivity.
      * left. rewrite (loop_body_silent env d segs A L T H).
        split; reflexivity.
    + left. rewrite (loop_body_raise env d e A L T). split; reflexivity.
    + left. rewrite (loop_body_exit env d c A L T). split; reflexivity.
  - left. rewrite (loop_body_idle env d G). unfold after, output. cbn.
    split; [reflexivity|].
    destruct (active d && negb (length (audio_queue d) =? 0)); reflexivity.
Qed.

(** No event touches the error field, and whatever an event publishes
    carries the error field as it was. *)
Lemma step_keeps_error (env : Env) (ev : event) (w : World)
  (x : option string) :
  st_error (status (daemon w)) = x ->
  Forall (fun st => st_error st = x) (published (log w)) ->
  st_error (status (daemon (step env w ev))) = x /\
  Forall (fun st => st_error st = x) (published (log (step env w ev))).
Proof.
  intros E F. destruct ev as [r|b|]; cbn [step].
  - pose proof (handle_connection_status env r (daemon w)) as S.
    unfold after, output in S.
    destruct (handle_connection env r (daemon w)) as [[o d'] out].
    cbn [fst snd daemon log] in *. rewrite published_app, Forall_app.
    destruct S as [[-> ->] | [b [-> ->]]].
    + repeat split; auto.
    + destruct (merge_status_fields (status (daemon w)) (Some b) None None)
        as [_ [_ M]].
      rewrite M. repeat split; auto.
  - rewrite audio_callback_runs. cbn [daemon log]. rewrite app_nil_r.
    destruct (active (daemon w)); split; assumption.
  - unfold tick. destruct (scheduler w); try (split; assumption).
    destruct (stop_event (daemon w)); [split; assumption|].
    pose proof (loop_body_status env (daemon w)) as S.
    unfold after, output in S.
    destruct (loop_body env (daemon w)) as [[o d'] out].
    cbn [fst snd] in S.
    assert (st_error (status d') = x /\
            Forall (fun st => st_error st = x) (published out)) as [E' F'].
    { destruct S as [[-> ->] | [t [-> ->]]].
      - split; auto.
      - destruct (merge_status_fields (status (daemon w)) None (Some t) None)
          as [_ [_ M]].
        rewrite M. split; auto. }
    destruct o; cbn [daemon log]; rewrite published_app, Forall_app; auto.
Qed.

Lemma run_keeps_error (env : Env) (evs : list event) (w : World)
  (x : option string) :
  st_error (status (daemon w)) = x ->
  Forall (fun st => st_error st = x) (published (log w)) ->
  st_error (status (daemon (run_events env evs w))) = x /\
  Forall (fun st => st_error st = x) (published (log (run_events env evs w))).
Proof.
  revert w. induction evs as [|ev evs IH]; intros w E F; [split; assumption|].
  cbn [run_events fold_left].
  destruct (step_keeps_error env ev w x E F) as [E' F'].
  apply (IH _ E' F').
Qed.

(** The status at start-up. *)
Lemma init_publishes (env : Env) :
  after (init env) = fresh /\
  published (output (init env)) = [mkStatus false "" None].
Proof.
  unfold init. destruct (update_status_runs env (Some false) (Some "") None
                           fresh) as [_ [-> [-> _]]].
  split; reflexivity.
Qed.

(** The only call that supplies [error]: a model that does not load. *)
Lemma load_model_fails (env : Env) (d : State) (err : string) :
  load env = Some err ->
  result (load_model env d) = Exit 1%Z /\
  published (output (load_model env d)) =
    [mkStatus (st_active (status d)) (st_text (status d)) (Some err)].
Proof.
  intro H. destruct d as [a q [sa stx se] s].
  unfold load_model. rewrite H. unfold_py. cbn.
  split_env; split; reflexivity.
Qed.

(** C10. Every call of [update_status] hands the whole status, with its
    three fields, to the write of the status file; a field that the caller
    does not supply keeps its value; the publish of a STOP carries the last
    text; an error field that is not null is not null after any call, and
    no connection, block or pass of the scheduler changes it, in the state
    or in any snapshot published afterwards. *)
Theorem status_publish_frame (env : Env) (a : option bool)
  (t e : option string) (d : State) (evs : list event) (w : World)
  (x : string) :
  let r := update_status env a t e d in
  published (output r) = [status (after r)] /\
  st_active (status (after r)) =
    match a with Some v => v | None => st_active (status d) end /\
  st_text (status (after r)) =
    match t with Some v => v | None => st_text (status d) end /\
  st_error (status (after r)) =
    match e with Some v => Some v | None => st_error (status d) end /\
  published (output (handle_connection env (Ret "STOP") d)) =
    [mkStatus false (st_text (status d)) (st_error (status d))] /\
  (st_error (status d) <> None -> st_error (status (after r)) <> None) /\
  (st_error (status (daemon w)) = Some x ->
   Forall (fun st => st_error st = Some x) (published (log w)) ->
   st_error (status (daemon (run_events env evs w))) = Some x /\
   Forall (fun st => st_error st = Some x)
          (published (log (run_events env evs w)))).
Proof.
  cbv zeta.
  destruct (update_status_runs env a t e d) as [_ [A [P _]]].
  destruct (merge_status_fields (status d) a t e) as [Ma [Mt Me]].
  rewrite A, P. cbn [status set_status].
  split; [reflexivity|]. split; [exact Ma|]. split; [exact Mt|].
  split; [exact Me|]. split; [apply handle_STOP|]. split.
  - rewrite Me. destruct e; [discriminate|auto].
  - apply run_keeps_error.
Qed.

(** ** From segments to keystrokes *)

Lemma append_empty_r (s : string) : s ++ "" = s.
Proof. induction s as [|c s IH]; cbn; [reflexivity|rewrite IH; reflexivity]. Qed.

Lemma append_assoc (a b c : string) : (a ++ b) ++ c = a ++ (b ++ c).
Proof. induction a as [|x a IH]; cbn; [reflexivity|rewrite IH; reflexivity]. Qed.

Lemma concat_empty_cons (x : string) (xs : list string) :
  String.concat "" (x :: xs) = x ++ String.concat "" xs.
Proof.
  destruct xs as [|y ys]; cbn [String.concat].
  - rewrite append_empty_r. reflexivity.
  - reflexivity.
Qed.

(** The [for] loop over the segments builds their texts joined in order. *)
Lemma fold_append_concat (segments : list string) (acc : string) :
  fold_left append segments acc = acc ++ String.concat "" segments.
Proof.
  revert acc. induction segments as [|x xs IH]; intro acc.
  - cbn. rewrite append_empty_r. reflexivity.
  - cbn [fold_left]. rewrite IH, concat_empty_cons, append_assoc. reflexivity.
Qed.

Lemma lstrip_blank_app (pre s : string) :
  blank pre = true -> lstrip (pre ++ s) = lstrip s.
Proof.
  induction pre as [|c pre IH]; cbn [blank append lstrip]; intro H;
    [reflexivity|].
  apply andb_true_iff in H. destruct H as [-> H]. apply IH, H.
Qed.

Lemma rstrip_blank (s : string) : blank s = true -> rstrip s = "".
Proof.
  induction s as [|c s IH]; cbn [blank rstrip]; intro H; [reflexivity|].
  apply andb_true_iff in H. destruct H as [-> H]. rewrite (IH H). reflexivity.
Qed.

Lemma rstrip_app_blank (s post : string) :
  blank post = true -> rstrip (s ++ post) = rstrip s.
Proof.
  intro H. induction s as [|c s IH]; cbn [append rstrip].
  - apply rstrip_blank, H.
  - rewrite IH. reflexivity.
Qed.

Lemma lstrip_blank (s : string) : blank s = true -> lstrip s = "".
Proof.
  induction s as [|c s IH]; cbn [blank lstrip]; intro H; [reflexivity|].
  apply andb_true_iff in H. destruct H as [-> H]. apply IH, H.
Qed.

(** [lstrip] takes a run of whitespace off the front, and what it leaves
    is empty or starts with something else. *)
Lemma lstrip_splits (s : string) :
  exists pre, s = pre ++ lstrip s /\ blank pre = true /\
    (lstrip s = "" \/
     exists c r, lstrip s = String c r /\ isspace c = false).
Proof.
  induction s as [|c s (pre & E & B & H)].
  - exists "". repeat split. left. reflexivity.
  - cbn [lstrip]. destruct (isspace c) eqn:W.
    + exists (String c pre). cbn [append blank]. rewrite <- E, W, B.
      repeat split. exact H.
    + exists "". repeat split. right. exists c, s. split; [reflexivity|exact W].
Qed.

(** [rstrip] takes a run of whitespace off the back, and what it leaves
    is empty or ends with something else. *)
Lemma rstrip_splits (s : string) :
  exists post, s = rstrip s ++ post /\ blank post = true /\
    (rstrip s = "" \/
     exists c r, rstrip s = String c r /\ isspace (last_of c r) = false).
Proof.
  induction s as [|c s (post & E & B & H)].
  - exists "". repeat split. left. reflexivity.
  - cbn [rstrip].
    destruct (isspace c) eqn:W; cbn [andb].
    + destruct (String.eqb_spec (rstrip s) "") as [Z|N].
      * rewrite Z in E. cbn [append] in E. subst post.
        exists (String c s). cbn [append blank]. rewrite W, B.
        repeat split. left. reflexivity.
      * exists post. cbn [append]. rewrite <- E. repeat split; [exact B|].
        right. exists c, (rstrip s). split; [reflexivity|].
        destruct H as [Z | (c1 & r1 & R & L)]; [contradiction|].
        rewrite R. exact L.
    + exists post. cbn [append]. rewrite <- E. repeat split; [exact B|].
      right. exists c, (rstrip s). split; [reflexivity|].
      destruct H as [Z | (c1 & r1 & R & L)].
      * rewrite Z. exact W.
      * rewrite R. exact L.
Qed.

(** [rstrip] keeps a first character that is not whitespace. *)
Lemma rstrip_keeps_head (c : ascii) (r : string) :
  isspace c = false -> rstrip (String c r) = String c (rstrip r).
Proof. intro W. cbn [rstrip]. rewrite W. reflexivity. Qed.

(** A text that ends with something else than whitespace is left alone by
    [rstrip]. *)
Lemma rstrip_clean (c : ascii) (r : string) :
  isspace (last_of c r) = false -> rstrip (String c r) = String c r.
Proof.
  revert c. induction r as [|c' r IH]; intros c W; cbn [last_of] in W.
  - cbn [rstrip]. rewrite W. reflexivity.
  - change (rstrip (String c (String c' r))) with
      (if isspace c && (rstrip (String c' r) =? "")%string
       then EmptyString else String c (rstrip (String c' r))).
    rewrite (IH c' W). cbn [String.eqb]. rewrite andb_false_r. reflexivity.
Qed.

(** [strip] trims. *)
Lemma strip_trims (s : string) : trimmed s (strip s).
Proof.
  unfold trimmed, strip.
  destruct (lstrip_splits s) as (pre & E & B & H).
  destruct (rstrip_splits (lstrip s)) as (post & E' & B' & H').
  exists pre, post. split; [rewrite <- E'; exact E|].
  split; [exact B|]. split; [exact B'|].
  destruct H' as [-> | (c & r & R & L)]; [reflexivity|].
  rewrite R. cbn [ends_clean]. rewrite L.
  destruct H as [Z | (c0 & r0 & R0 & W)].
  - rewrite Z in R. discriminate R.
  - rewrite R0, (rstrip_keeps_head c0 r0 W) in R. inversion R; subst.
    rewrite W. reflexivity.
Qed.

(** And there is one way only to trim a text. *)
Lemma trimmed_is_strip (s t : string) : trimmed s t -> t = strip s.
Proof.
  intros (pre & post & -> & B & B' & C). unfold strip.
  rewrite (lstrip_blank_app pre _ B).
  destruct t as [|c r].
  - cbn [append]. rewrite (lstrip_blank post B'). reflexivity.
  - cbn [ends_clean] in C. apply andb_true_iff in C. destruct C as [W L].
    apply negb_true_iff in W. apply negb_true_iff in L.
    cbn [append lstrip]. rewrite W.
    change (String c (r ++ post)) with (String c r ++ post).
    rewrite (rstrip_app_blank _ post B'), (rstrip_clean c r L). reflexivity.
Qed.

Lemma truthy_iff (s : string) : truthy s = true <-> s <> "".
Proof.
  unfold truthy. destruct (String.eqb_spec s ""); cbn; split; congruence.
Qed.

(** C6. When the engine returns its segments for a batch, the scheduler
    joins the segment texts in order and trims the result: there is one text
    that is the joined text without the whitespace before and after it
    (neither its first nor its last character is whitespace), and it is
    what the scheduler goes on with.  If that text is not empty, the
    injector is called once, with the text and one trailing space, the text
    field of the status becomes the text, and the status is published once
    with it; if the text is empty, nothing is typed, nothing is published
    and the status is as it was. *)
Theorem recognised_text_is_typed (env : Env) (d : State)
  (segments : list string) :
  active d = true ->
  4 <= length (audio_queue d) ->
  transcribe env (concatenate (audio_queue d)) = Ret segments ->
  exists text,
    trimmed (String.concat "" segments) text /\
    (forall t, trimmed (String.concat "" segments) t -> t = text) /\
    let r := loop_body env d in
    (text <> "" ->
     typed (output r) = [text ++ " "] /\
     st_text (status (after r)) = text /\
     published (output r) =
       [mkStatus (st_active (status d)) text (st_error (status d))]) /\
    (text = "" ->
     typed (output r) = [] /\
     status (after r) = status d /\
     published (output r) = []).
Proof.
  intros A L T. apply Nat.leb_le in L.
  exists (strip (String.concat "" segments)).
  set (text := strip (String.concat "" segments)).
  assert (Ht : heard segments = text).
  { unfold heard. rewrite fold_append_concat. reflexivity. }
  split; [apply strip_trims|].
  split; [intros t H; apply trimmed_is_strip, H|].
  cbv zeta. split; intro H.
  - assert (Hy : truthy (heard segments) = true)
      by (rewrite Ht; apply truthy_iff, H).
    rewrite (loop_body_text env d segments A L T Hy).
    unfold output, after. cbn [fst snd]. rewrite Ht.
    rewrite typed_app, published_app, typed_app, published_app.
    cbn [status set_status].
    destruct (wtype env (text ++ " ")), (write_status env _);
      destruct (status d); repeat split; reflexivity.
  - assert (Hy : truthy (heard segments) = false).
    { rewrite Ht, H. reflexivity. }
    rewrite (loop_body_silent env d segments A L T Hy).
    repeat split; reflexivity.
Qed.

(** ** The two-second threshold *)

Lemma loop_body_invokes (env : Env) (d : State) :
  invocations (output (loop_body env d)) =
    if active d && (4 <=? length (audio_queue d))
    then [concatenate (audio_queue d)] else [].
Proof.
  destruct (active d && (4 <=? length (audio_queue d))) eqn:G.
  - apply andb_true_iff in G. destruct G as [A L].
    destruct (transcribe env (concatenate (audio_queue d))) as [segs|e|c] eqn:T.
    + destruct (truthy (heard segs)) eqn:H.
      * rewrite (loop_body_text env d segs A L T H).
        unfold output. cbn [snd]. rewrite !invocations_app. cbn.
        destruct (wtype env _), (write_status env _); reflexivity.
      * rewrite (loop_body_silent env d segs A L T H). reflexivity.
    + rewrite (loop_body_raise env d e A L T). reflexivity.
    + rewrite (loop_body_exit env d c A L T). reflexivity.
  - rewrite (loop_body_idle env d G). unfold output. cbn [snd].
    destruct (active d && negb (length (audio_queue d) =? 0)); reflexivity.
Qed.

Lemma stage_tick_short (env : Env) (w : World) (q calls : list audio) :
  length q < 4 -> stage w q calls -> stage (tick env w) q calls.
Proof.
  intros S (A & St & R & Q & I). unfold tick. rewrite R, St.
  assert (G : active (daemon w) && (4 <=? length (audio_queue (daemon w)))
              = false).
  { rewrite Q. apply andb_false_iff. right. apply Nat.leb_gt, S. }
  rewrite (loop_body_idle env (daemon w) G). unfold stage. cbn [daemon scheduler log].
  rewrite invocations_app.
  repeat split; try assumption.
  destruct (_ && negb _); cbn; rewrite app_nil_r; exact I.
Qed.

Lemma stage_ticks_short (env : Env) (n : nat) (w : World)
  (q calls : list audio) :
  length q < 4 -> stage w q calls ->
  stage (run_events env (ticks n) w) q calls.
Proof.
  intro S. revert w. induction n as [|n IH]; intros w H; [exact H|].
  cbn [ticks repeat run_events fold_left step].
  apply IH, (stage_tick_short env w q calls S H).
Qed.

Lemma stage_block (env : Env) (b : list Z) (w : World) (q calls : list audio) :
  stage w q calls ->
  stage (step env w (Block b)) (q ++ [normalise b]) calls.
Proof.
  intros (A & St & R & Q & I). unfold stage, step.
  rewrite audio_callback_runs, A. cbn [daemon scheduler log].
  rewrite app_nil_r, Q. repeat split; assumption.
Qed.

Lemma stage_start (env : Env) (d : State) :
  stop_event d = false ->
  stage (step env (mkWorld d Running []) (Connection (Ret "START"))) [] [].
Proof.
  intro St. destruct d as [a q st s]. cbn in St. subst s.
  unfold stage, step. unfold_py. eval_token. cbn.
  split_env; repeat split; reflexivity.
Qed.

(** After the pass that drains the queue, and after any further passes,
    there is the one call more and the queue is empty. *)
Lemma drained_stays (env : Env) (n : nat) (w : World) (calls : list audio) :
  audio_queue (daemon w) = [] -> invocations (log w) = calls ->
  audio_queue (daemon (run_events env (ticks n) w)) = [] /\
  invocations (log (run_events env (ticks n) w)) = calls.
Proof.
  revert w. induction n as [|n IH]; intros w Q I; [split; assumption|].
  cbn [ticks repeat run_events fold_left step]. apply IH.
  - unfold tick. destruct (scheduler w); try exact Q.
    destruct (stop_event (daemon w)); [exact Q|].
    pose proof (loop_body_queue env (daemon w)) as H. unfold after in H.
    destruct (loop_body env (daemon w)) as [[o d'] out]. cbn [fst snd] in H.
    rewrite Q in H. destruct o; cbn [daemon]; destruct H; assumption.
  - unfold tick. destruct (scheduler w); try exact I.
    destruct (stop_event (daemon w)); [exact I|].
    pose proof (loop_body_invokes env (daemon w)) as H. unfold output in H.
    rewrite Q, andb_false_r in H.
    destruct (loop_body env (daemon w)) as [[o d'] out]. cbn [snd] in H.
    destruct o; cbn [log]; rewrite invocations_app, H, app_nil_r; exact I.
Qed.

Lemma loop_body_drains (env : Env) (d : State) :
  active d = true -> (4 <=? length (audio_queue d)) = true ->
  audio_queue (after (loop_body env d)) = [].
Proof.
  intros A L.
  destruct (transcribe env (concatenate (audio_queue d))) as [segs|e|c] eqn:T.
  - destruct (truthy (heard segs)) eqn:H.
    + rewrite (loop_body_text env d segs A L T H). reflexivity.
    + rewrite (loop_body_silent env d segs A L T H). reflexivity.
  - rewrite (loop_body_raise env d e A L T). reflexivity.
  - rewrite (loop_body_exit env d c A L T). reflexivity.
Qed.

Lemma stage_tick_drain (env : Env) (w : World) (q calls : list audio) :
  4 <= length q -> stage w q calls ->
  audio_queue (daemon (tick env w)) = [] /\
  invocations (log (tick env w)) = (calls ++ [concatenate q])%list.
Proof.
  intros L (A & St & R & Q & I). unfold tick. rewrite R, St.
  assert (L' : (4 <=? length (audio_queue (daemon w))) = true)
    by (rewrite Q; apply Nat.leb_le, L).
  pose proof (loop_body_invokes env (daemon w)) as H. unfold output in H.
  pose proof (loop_body_drains env (daemon w) A L') as K. unfold after in K.
  rewrite A, L', Q in H. cbn [andb] in H.
  destruct (loop_body env (daemon w)) as [[o d'] out]. cbn [fst snd] in *.
  destruct o; cbn [daemon log]; rewrite invocations_app, H, I; split;
    first [exact K | reflexivity].
Qed.

(** C5. The scheduler calls the engine in a pass exactly when recording is
    on and the queue holds at least four chunks, that is 2.0 seconds at 0.5
    seconds a chunk, and then with the chunks joined in order.  From any
    state that is not stopping, with the scheduler alive and no call made:
    after START and three blocks, with any number of passes of the scheduler
    before, between and after them, the engine has not been called and the
    queue holds the three chunks; after the fourth block and at least one
    pass the engine has been called once, with the four chunks joined in
    order (as many samples as the four blocks have frames), and the queue
    is empty. *)
Theorem engine_called_at_two_seconds (env : Env) (d0 : State)
  (b1 b2 b3 b4 : list Z) (n0 n1 n2 n3 n4 : nat) (d : State) :
  stop_event d0 = false ->
  let w0 := mkWorld d0 Running [] in
  let w3 := run_events env
              (Connection (Ret "START") :: ticks n0 ++
               Block b1 :: ticks n1 ++
               Block b2 :: ticks n2 ++
               Block b3 :: ticks n3) w0 in
  let w4 := run_events env (Block b4 :: ticks (S n4)) w3 in
  (enough (audio_queue d) = true <-> 4 <= length (audio_queue d)) /\
  invocations (output (loop_body env d)) =
    (if active d && enough (audio_queue d)
     then [concatenate (audio_queue d)] else []) /\
  invocations (log w3) = [] /\
  audio_queue (daemon w3) = [normalise b1; normalise b2; normalise b3] /\
  invocations (log w4) =
    [(normalise b1 ++ normalise b2 ++ normalise b3 ++ normalise b4)%list] /\
  length (normalise b1 ++ normalise b2 ++ normalise b3 ++ normalise b4) =
    length b1 + length b2 + length b3 + length b4 /\
  audio_queue (daemon w4) = [].
Proof.
  intros St w0 w3 w4.
  split; [apply enough_iff|].
  split; [rewrite enough_leb; apply loop_body_invokes|].
  assert (S3 : stage w3 [normalise b1; normalise b2; normalise b3] []).
  { subst w3 w0. cbn [run_events fold_left].
    fold (run_events env). 
    pose proof (stage_start env d0 St) as S0.
    set (wa := step env _ _) in *.
    change (fold_left (step env)) with (run_events env).
    rewrite run_events_app.
    apply (stage_ticks_short env n0) in S0; [|cbn; lia].
    set (wb := run_events env (ticks n0) wa) in *.
    cbn [run_events fold_left].
    change (fold_left (step env)) with (run_events env).
    apply (stage_block env b1) in S0. cbn [app] in S0.
    rewrite run_events_app.
    apply (stage_ticks_short env n1) in S0; [|cbn; lia].
    set (wc := run_events env (ticks n1) (step env wb (Block b1))) in *.
    cbn [run_events fold_left].
    change (fold_left (step env)) with (run_events env).
    apply (stage_block env b2) in S0. cbn [app] in S0.
    rewrite run_events_app.
    apply (stage_ticks_short env n2) in S0; [|cbn; lia].
    set (wd := run_events env (ticks n2) (step env wc (Block b2))) in *.
    cbn [run_events fold_left].
    change (fold_left (step env)) with (run_events env).
    apply (stage_block env b3) in S0. cbn [app] in S0.
    apply (stage_ticks_short env n3) in S0; [|cbn; lia].
    exact S0. }
  split; [apply S3|]. split; [apply S3|].
  assert (E : w4 = run_events env (ticks n4)
                     (tick env (step env w3 (Block b4)))) by reflexivity.
  rewrite E. clear E w4.
  apply (stage_block env b4) in S3. cbn [app] in S3.
  apply (stage_tick_drain env) in S3; [|cbn; lia].
  destruct S3 as [Q I].
  destruct (drained_stays env n4 _ _ Q I) as [Q' I'].
  rewrite Q', I'.
  split; [cbn; rewrite app_nil_r; reflexivity|].
  split; [|reflexivity].
  unfold normalise. rewrite !length_app, !length_map. lia.
Qed.

(** ** An engine that raises *)

Lemma handle_connection_quiet (env : Env) (r : outcome string) (d : State) :
  invocations (output (handle_connection env r d)) = [].
Proof.
  destruct d as [a q st s].
  destruct r as [text|e|c]; unfold_py; cbn; try reflexivity.
  set (data := strip text).
  destruct (data =? "START")%string; cbn; [split_env; reflexivity|].
  destruct (data =? "STOP")%string; cbn; [split_env; reflexivity|].
  destruct (data =? "TOGGLE")%string; cbn; [split_env; reflexivity|].
  reflexivity.
Qed.

(** Once the transcription thread is dead, no event revives it and the
    engine is not called again. *)
Lemma dead_scheduler (env : Env) (evs : list event) (w : World) (e : string) :
  scheduler w = Died e ->
  scheduler (run_events env evs w) = Died e /\
  invocations (log (run_events env evs w)) = invocations (log w).
Proof.
  revert w. induction evs as [|ev evs IH]; intros w D; [split; auto|].
  cbn [run_events fold_left].
  assert (scheduler (step env w ev) = Died e /\
          invocations (log (step env w ev)) = invocations (log w)) as [D' I'].
  { destruct ev as [r|b|]; cbn [step].
    - pose proof (handle_connection_quiet env r (daemon w)) as H.
      unfold output in H.
      destruct (handle_connection env r (daemon w)) as [[o d'] out].
      cbn [snd scheduler log] in *.
      rewrite invocations_app, H, app_nil_r. split; auto.
    - rewrite audio_callback_runs. cbn [scheduler log].
      rewrite app_nil_r. split; auto.
    - unfold tick. rewrite D. split; auto. }
  destruct (IH _ D') as [D'' I'']. unfold run_events in *.
  rewrite D'', I'', I'. split; reflexivity.
Qed.

(** C2, as the code has it.  When the engine raises on a batch, nothing in
    [transcription_loop] catches the error or prints it: the exception leaves
    the loop at that pass, however many passes were still to come, the
    transcription thread is dead from then on and the engine is never called
    again, whatever arrives.  The batch had been taken out of pendingAudio
    before the call and is not put back. *)
Theorem engine_error_ends_loop (env : Env) (d : State) (e : string)
  (fuel : nat) (evs : list event) :
  stop_event d = false ->
  active d = true ->
  4 <= length (audio_queue d) ->
  transcribe env (concatenate (audio_queue d)) = Raise e ->
  transcription_loop env (S fuel) d =
    (Raise e, set_queue [] d, [Transcribe (concatenate (audio_queue d))]) /\
  let w := tick env (mkWorld d Running []) in
  scheduler w = Died e /\
  audio_queue (daemon w) = [] /\
  scheduler (run_events env evs w) = Died e /\
  invocations (log (run_events env evs w)) = [concatenate (audio_queue d)].
Proof.
  intros St A L T. apply Nat.leb_le in L.
  pose proof (loop_body_raise env d e A L T) as B.
  split.
  - cbn [transcription_loop]. unfold bind at 1. unfold gets.
    rewrite St. unfold bind. rewrite B. reflexivity.
  - cbv zeta.
    assert (W : tick env (mkWorld d Running []) =
                mkWorld (set_queue [] d) (Died e)
                        [Transcribe (concatenate (audio_queue d))]).
    { unfold tick. cbn [scheduler daemon log]. rewrite St, B. reflexivity. }
    rewrite W. cbn [scheduler daemon].
    split; [reflexivity|]. split; [reflexivity|].
    exact (dead_scheduler env evs
             (mkWorld (set_queue [] d) (Died e)
                      [Transcribe (concatenate (audio_queue d))])
             e eq_refl).
Qed.

(** ** The drain and the callback, interleaved *)

(** C1, as the code has it.  The drain is two steps and the callback is
    not kept out of the gap between them.  With recording on, a delivery
    and a drain can run in three orders: the delivery first, and the block
    is in the batch; the delivery last, and the block is in the queue after
    the clear; the delivery between the two steps, and the block is in
    neither, the batch being the queue as it was and the queue being
    empty. *)
Theorem drain_is_two_steps (d : State) (in_data : list Z) (tr : list action) :
  active d = true ->
  In tr (interleavings [Concatenate; Clear] [Append in_data]) ->
  let t := run_actions tr (mkThreads d None) in
  let q := audio_queue d in
  let b := normalise in_data in
  (tr = [Append in_data; Concatenate; Clear] /\
   chunks t = Some (q ++ [b])%list /\ audio_queue (shared t) = []) \/
  (tr = [Concatenate; Clear; Append in_data] /\
   chunks t = Some q /\ audio_queue (shared t) = [b]) \/
  (tr = [Concatenate; Append in_data; Clear] /\
   chunks t = Some q /\ audio_queue (shared t) = []).
Proof.
  intros A H. cbv zeta. destruct d as [a q st s]. cbn in A. subst a.
  cbn in H. destruct H as [<- | [<- | [<- | []]]].
  - right. left. repeat split; reflexivity.
  - right. right. repeat split; reflexivity.
  - left. repeat split; reflexivity.
Qed.

(** ** Tokens *)

Lemma strip_token (c : Command) : strip (token c) = token c.
Proof. destruct c; reflexivity. Qed.

(** The daemon looks at the received text through [strip] alone. *)
Lemma handle_connection_strip (env : Env) (text text' : string) (d : State) :
  strip text = strip text' ->
  handle_connection env (Ret text) d = handle_connection env (Ret text') d.
Proof.
  intro H. unfold handle_connection, try_finally, try_except, bind, lift.
  rewrite H. reflexivity.
Qed.

Lemma handle_connection_ignored (env : Env) (text : string) (d : State) :
  (forall c, strip text <> token c) ->
  handle_connection env (Ret text) d = (Ret tt, d, [Close]).
Proof.
  intro H. unfold handle_connection, try_finally, try_except, bind, lift, ret,
    emit.
  destruct (String.eqb_spec (strip text) "START") as [E|_];
    [destruct (H START E)|].
  destruct (String.eqb_spec (strip text) "STOP") as [E|_];
    [destruct (H STOP E)|].
  destruct (String.eqb_spec (strip text) "TOGGLE") as [E|_];
    [destruct (H TOGGLE E)|].
  reflexivity.
Qed.

Lemma send_command_ok (net : Client.Net) (cmd : string) :
  failure net = None ->
  Client.send_command net cmd =
    (Ret tt, [Client.Connect Client.SOCKET_PATH; Client.Sendall cmd;
              Client.Close]).
Proof.
  destruct net as [[a|] [b|] [c|] [e|]]; cbn; intro H;
    try discriminate; reflexivity.
Qed.

Lemma send_command_fails (net : Client.Net) (cmd e : string) :
  failure net = Some e ->
  Client.exit_code (Client.send_command net cmd) = 1%Z /\
  Client.written Client.stdout (snd (Client.send_command net cmd)) =
    ["Failed to connect to daemon: " ++ e] /\
  Client.written Client.stderr (snd (Client.send_command net cmd)) = [].
Proof.
  destruct net as [[a|] [b|] [c|] [x|]]; cbn; intro H;
    try discriminate; inversion H; subst; repeat split; reflexivity.
Qed.

(** C4, as the code has it.  The daemon strips the received text and
    compares it with START, STOP and TOGGLE as they are written: a text
    that strips to one of the three acts as that command, any other text,
    the lowercase ones among them, changes nothing and publishes nothing.
    The uppercase is made by the client, which sends its (ASCII) argument
    in uppercase. *)
Theorem tokens_compared_exactly (env : Env) (text : string) (d : State)
  (c : Command) (net : Client.Net) (prog arg : string) :
  (strip text = token c ->
   handle_connection env (Ret text) d =
     handle_connection env (Ret (token c)) d) /\
  ((forall c', strip text <> token c') ->
   handle_connection env (Ret text) d = (Ret tt, d, [Close])) /\
  (isascii arg = true -> failure net = None ->
   Client.sent (snd (Client.main net [prog; arg])) = [upper arg]).
Proof.
  split; [|split].
  - intro H. apply handle_connection_strip. rewrite strip_token. exact H.
  - apply handle_connection_ignored.
  - intros _ F. cbn [Client.main]. rewrite (send_command_ok net _ F).
    reflexivity.
Qed.

(** C9, as the code has it.  For an ASCII argument: the client leaves
    with code 0 exactly when its four socket calls (create, connect, send,
    close) all return, and then the argument has been sent in uppercase
    and nothing is printed.  When one of them raises it prints the failure
    message on standard output, nothing on the error stream, and leaves with
    code 1; this is so also when the close alone raises, after the command
    has been sent. *)
Theorem client_exit_codes (net : Client.Net) (prog arg e : string) :
  isascii arg = true ->
  (Client.exit_code (Client.main net [prog; arg]) = 0%Z <->
   failure net = None) /\
  (failure net = None ->
   Client.sent (snd (Client.main net [prog; arg])) = [upper arg] /\
   Client.written Client.stdout (snd (Client.main net [prog; arg])) = [] /\
   Client.written Client.stderr (snd (Client.main net [prog; arg])) = []) /\
  (failure net = Some e ->
   Client.exit_code (Client.main net [prog; arg]) = 1%Z /\
   Client.written Client.stdout (snd (Client.main net [prog; arg])) =
     ["Failed to connect to daemon: " ++ e] /\
   Client.written Client.stderr (snd (Client.main net [prog; arg])) = []) /\
  (Client.socket_err net = None -> Client.connect_err net = None ->
   Client.sendall_err net = None -> Client.close_err net = Some e ->
   Client.exit_code (Client.main net [prog; arg]) = 1%Z /\
   Client.sent (snd (Client.main net [prog; arg])) = [upper arg]).
Proof.
  intros _. cbn [Client.main]. split; [|split; [|split]].
  - destruct (failure net) as [x|] eqn:F.
    + destruct (send_command_fails net (upper arg) x F) as [-> _].
      split; discriminate.
    + rewrite (send_command_ok net _ F). split; reflexivity.
  - intro F. rewrite (send_command_ok net _ F). repeat split; reflexivity.
  - apply send_command_fails.
  - destruct net as [so co se cl]. cbn. intros -> -> -> ->. cbn.
    split; reflexivity.
Qed.

(** * The statements at sample inputs *)

(** ** The scenarios of the specification *)

(** A STOP with three chunks pending: recording goes off, the three chunks
    stay where they are and the engine is not called. *)
Example stop_keeps_pending :
  let d := mkState true (map normalise [[1%Z]; [2%Z]; [3%Z]])
                   (mkStatus true "" None) false in
  let w := run_events quiet_env [send STOP; Tick; Tick]
                      (mkWorld d Running []) in
  active (daemon w) = false /\
  length (audio_queue (daemon w)) = 3 /\
  invocations (log w) = [] /\
  published (log w) = [mkStatus false "" None].
Proof. repeat split; reflexivity. Qed.

(** The engine hears "hello world": "hello world " is typed and the status
    carries "hello world". *)
Example hello_world_typed :
  typed (output (loop_body hello_env recording_four)) = ["hello world "] /\
  st_text (status (after (loop_body hello_env recording_four))) =
    "hello world".
Proof. split; reflexivity. Qed.

(** ** Witnesses *)


Lemma status_publish_frame_witness :
  st_error (status (after (update_status quiet_env (Some true) None None
                             idle_with_error))) <> None /\
  st_error
    (status (daemon (run_events hello_env
                       [send START; Block [1%Z]; Block [2%Z]; Block [3%Z];
                        Block [4%Z]; Tick; send STOP]
                       (mkWorld idle_with_error Running [])))) =
    Some "no model" /\
  Forall (fun st => st_error st = Some "no model")
    (published (log (run_events hello_env
                       [send START; Block [1%Z]; Block [2%Z]; Block [3%Z];
                        Block [4%Z]; Tick; send STOP]
                       (mkWorld idle_with_error Running [])))).
Proof.
  destruct (status_publish_frame hello_env (Some true) None None
              idle_with_error
              [send START; Block [1%Z]; Block [2%Z]; Block [3%Z];
               Block [4%Z]; Tick; send STOP]
              (mkWorld idle_with_error Running []) "no model")
    as [_ [_ [_ [_ [_ [N P]]]]]].
  split.
  - apply (status_publish_frame quiet_env (Some true) None None
             idle_with_error [] (mkWorld idle_with_error Running [])
             "no model").
    discriminate.
  - apply P; [reflexivity | constructor].
Defined.

Lemma recognised_text_is_typed_witness :
  (typed (output (loop_body padded_env recording_four)) = ["hello world "] /\
   st_text (status (after (loop_body padded_env recording_four))) =
     "hello world" /\
   published (output (loop_body padded_env recording_four)) =
     [mkStatus true "hello world" None]) /\
  (typed (output (loop_body quiet_env recording_four)) = [] /\
   status (after (loop_body quiet_env recording_four)) =
     status recording_four /\
   published (output (loop_body quiet_env recording_four)) = []).
Proof.
  split.
  - destruct (recognised_text_is_typed padded_env recording_four
                [" hello"; " world "] eq_refl ltac:(cbn; lia) eq_refl)
      as (text & _ & U & B & _).
    assert (E : "hello world" = text).
    { apply U. exists " ", " ". repeat split; reflexivity. }
    subst text. apply B. discriminate.
  - destruct (recognised_text_is_typed quiet_env recording_four
                [] eq_refl ltac:(cbn; lia) eq_refl)
      as (text & _ & U & _ & B).
    assert (E : "" = text).
    { apply U. exists "", "". repeat split; reflexivity. }
    subst text. apply B. reflexivity.
Defined.

Lemma engine_called_at_two_seconds_witness :
  invocations
    (log (run_events hello_env
            (Connection (Ret "START") :: ticks 1 ++
             Block [1%Z] :: ticks 0 ++
             Block [2%Z] :: ticks 2 ++
             Block [3%Z] :: ticks 1)
            (mkWorld fresh Running []))) = [] /\
  invocations
    (log (run_events hello_env (Block [4%Z] :: ticks 3)
            (run_events hello_env
               (Connection (Ret "START") :: ticks 1 ++
                Block [1%Z] :: ticks 0 ++
                Block [2%Z] :: ticks 2 ++
                Block [3%Z] :: ticks 1)
               (mkWorld fresh Running [])))) =
    [concatenate (audio_queue recording_four)].
Proof.
  destruct (engine_called_at_two_seconds hello_env fresh
              [1%Z] [2%Z] [3%Z] [4%Z] 1 0 2 1 2 fresh eq_refl)
    as [_ [_ [A [_ [B _]]]]].
  split; [exact A | exact B].
Defined.

Lemma engine_error_ends_loop_witness :
  transcription_loop broken_env 3 recording_four =
    (Raise "boom", set_queue [] recording_four,
     [Transcribe (concatenate (audio_queue recording_four))]) /\
  scheduler
    (run_events broken_env
       [Block [5%Z]; Block [6%Z]; Block [7%Z]; Block [8%Z]; Tick]
       (tick broken_env (mkWorld recording_four Running []))) =
    Died "boom".
Proof.
  destruct (engine_error_ends_loop broken_env recording_four "boom" 2
              [Block [5%Z]; Block [6%Z]; Block [7%Z]; Block [8%Z]; Tick]
              eq_refl eq_refl ltac:(cbn; lia) eq_refl)
    as [A [_ [_ [B _]]]].
  split; [exact A | exact B].
Defined.

Lemma drain_is_two_steps_witness :
  chunks (run_actions gap_trace (mkThreads recording_four None)) =
    Some (audio_queue recording_four) /\
  audio_queue (shared (run_actions gap_trace (mkThreads recording_four None)))
    = [].
Proof.
  destruct (drain_is_two_steps recording_four [7%Z] gap_trace eq_refl
              ltac:(cbn; auto))
    as [[E _] | [[E _] | [_ H]]]; [discriminate E | discriminate E | exact H].
Defined.

Lemma tokens_compared_exactly_witness :
  handle_connection quiet_env (Ret "  STOP ") recording_four =
    handle_connection quiet_env (Ret "STOP") recording_four /\
  handle_connection quiet_env (Ret "stop") recording_four =
    (Ret tt, recording_four, [Close]) /\
  Client.sent (snd (Client.main listening ["client.py"; "stop"])) = ["STOP"].
Proof.
  split; [|split].
  - apply (tokens_compared_exactly quiet_env "  STOP " recording_four STOP listening "client.py" "stop").
    reflexivity.
  - apply (tokens_compared_exactly quiet_env "stop" recording_four STOP
             listening "client.py" "stop").
    intros [| |]; discriminate.
  - apply (tokens_compared_exactly quiet_env "stop" recording_four STOP
             listening "client.py" "stop"); reflexivity.
Defined.

Lemma client_exit_codes_witness :
  Client.exit_code (Client.main listening ["client.py"; "toggle"]) = 0%Z /\
  Client.sent (snd (Client.main listening ["client.py"; "toggle"])) =
    ["TOGGLE"] /\
  Client.exit_code (Client.main refused ["client.py"; "toggle"]) = 1%Z /\
  Client.written Client.stdout
    (snd (Client.main refused ["client.py"; "toggle"])) =
    ["Failed to connect to daemon: [Errno 111] Connection refused"] /\
  Client.exit_code (Client.main close_fails ["client.py"; "toggle"]) = 1%Z /\
  Client.sent (snd (Client.main close_fails ["client.py"; "toggle"])) =
    ["TOGGLE"].
Proof.
  destruct (client_exit_codes listening "client.py" "toggle" "" eq_refl)
    as [Z [A _]].
  destruct (client_exit_codes refused "client.py" "toggle"
              "[Errno 111] Connection refused" eq_refl) as [_ [_ [B _]]].
  destruct (client_exit_codes close_fails "client.py" "toggle"
              "[Errno 9] Bad file descriptor" eq_refl) as [_ [_ [_ K]]].
  destruct (A eq_refl) as [A2 _].
  destruct (B eq_refl) as [B1 [B2 _]].
  destruct (K eq_refl eq_refl eq_refl eq_refl) as [K1 K2].
  split; [apply Z; reflexivity|].
  repeat split; assumption.
Defined.

(** ** Where the specification and the code part *)

(** C1, as the specification has it, fails: a block delivered between the
    concatenation and the clear is not in the batch and is not in the queue
    after the clear. *)
Lemma block_lost_in_the_gap :
  In gap_trace (interleavings [Concatenate; Clear] [Append [7%Z]]) /\
  active recording_four = true /\
  chunks (run_actions gap_trace (mkThreads recording_four None)) =
    Some (map normalise [[1%Z]; [2%Z]; [3%Z]; [4%Z]]) /\
  ~ In (normalise [7%Z]) (map normalise [[1%Z]; [2%Z]; [3%Z]; [4%Z]]) /\
  ~ In (normalise [7%Z])
       (audio_queue
          (shared (run_actions gap_trace (mkThreads recording_four None)))).
Proof.
  split; [cbn; auto|]. split; [reflexivity|]. split; [reflexivity|].
  split.
  - cbn. intros [H | [H | [H | [H | []]]]]; discriminate H.
  - cbn. intros [].
Qed.

(** C2, as the specification has it, fails: the error of the engine is not
    caught and not printed, and the loop ends at that pass; four more
    blocks and another pass later the engine has still been called once
    only and the blocks sit in the queue. *)
Lemma engine_error_kills_scheduler :
  stop_event recording_four = false /\
  transcribe broken_env (concatenate (audio_queue recording_four)) =
    Raise "boom" /\
  loop_body broken_env recording_four =
    (Raise "boom", set_queue [] recording_four,
     [Transcribe (concatenate (audio_queue recording_four))]) /\
  result (transcription_loop broken_env 3 recording_four) = Raise "boom" /\
  output (transcription_loop broken_env 3 recording_four) =
    [Transcribe (concatenate (audio_queue recording_four))] /\
  scheduler
    (run_events broken_env
       [Tick; Block [5%Z]; Block [6%Z]; Block [7%Z]; Block [8%Z]; Tick]
       (mkWorld recording_four Running [])) = Died "boom" /\
  length
    (invocations
       (log (run_events broken_env
               [Tick; Block [5%Z]; Block [6%Z]; Block [7%Z]; Block [8%Z];
                Tick]
               (mkWorld recording_four Running [])))) = 1 /\
  length
    (audio_queue
       (daemon (run_events broken_env
                  [Tick; Block [5%Z]; Block [6%Z]; Block [7%Z]; Block [8%Z];
                   Tick]
                  (mkWorld recording_four Running [])))) = 4.
Proof. repeat split; reflexivity. Qed.

(** C4, as the specification has it, fails: the daemon does not put the
    token in uppercase; "start" is ignored, where START turns recording
    on. *)
Lemma lowercase_start_ignored :
  upper (strip "start") = "START" /\
  handle_connection quiet_env (Ret "start") fresh = (Ret tt, fresh, [Close]) /\
  active fresh = false /\
  active (after (handle_connection quiet_env (Ret "START") fresh)) = true.
Proof. repeat split; reflexivity. Qed.

(** C9, as the specification has it, fails: when the connection is refused
    the message goes to standard output and the error stream gets nothing;
    and when the close raises, the command has been sent and the code is 1
    all the same. *)
Lemma failure_message_on_stdout :
  failure refused = Some "[Errno 111] Connection refused" /\
  Client.exit_code (Client.main refused ["client.py"; "start"]) = 1%Z /\
  Client.written Client.stderr
    (snd (Client.main refused ["client.py"; "start"])) = [] /\
  Client.written Client.stdout
    (snd (Client.main refused ["client.py"; "start"])) =
    ["Failed to connect to daemon: [Errno 111] Connection refused"] /\
  Client.sent (snd (Client.main close_fails ["client.py"; "start"])) =
    ["START"] /\
  Client.exit_code (Client.main close_fails ["client.py"; "start"]) = 1%Z.
Proof. repeat split; reflexivity. Qed.

(** * Further properties of the code *)

(** ** Collaborators that fail *)

(** X1.  [type_text] does nothing at all on the empty text.  On any other
    text it runs [wtype] once, with that text, and returns whatever [wtype]
    does: a failure is printed and goes no further.  It never touches the
    state and never publishes. *)
Theorem type_text_guarded (env : Env) (text : string) (d : State) :
  type_text env "" d = (Ret tt, d, []) /\
  (text <> "" ->
   result (type_text env text d) = Ret tt /\
   after (type_text env text d) = d /\
   typed (output (type_text env text d)) = [text] /\
   published (output (type_text env text d)) = [] /\
   invocations (output (type_text env text d)) = [] /\
   output (type_text env text d) =
     Wtype text ::
       match wtype env text with
       | None => []
       | Some err => [Print ("Failed to type text: " ++ err)]
       end).
Proof.
  split; [reflexivity|]. intro H.
  rewrite (type_text_runs env text d) by (apply truthy_iff, H).
  unfold result, after, output. cbn [fst snd].
  destruct (wtype env text); repeat split; reflexivity.
Qed.

(** X2.  A status file that cannot be written changes nothing for the
    daemon: [update_status] returns all the same, the state after it is the
    state after a write that works, and the only difference is one line on
    standard output after the attempt. *)
Theorem write_failure_is_swallowed (env env' : Env) (a : option bool)
  (t e : option string) (d : State) (err : string) :
  write_status env (merge_status (status d) a t e) = Some err ->
  write_status env' (merge_status (status d) a t e) = None ->
  result (update_status env a t e d) = Ret tt /\
  after (update_status env a t e d) = after (update_status env' a t e d) /\
  output (update_status env' a t e d) = [Dump (merge_status (status d) a t e)] /\
  output (update_status env a t e d) =
    [Dump (merge_status (status d) a t e);
     Print ("Failed to write status: " ++ err)].
Proof.
  intros F S.
  unfold update_status, bind, gets, modify, emit, ret, result, after, output.
  cbn [fst snd status set_status]. rewrite F, S. repeat split; reflexivity.
Qed.

Lemma init_runs (env : Env) :
  result (init env) = Ret tt /\ after (init env) = fresh /\
  published (output (init env)) = [mkStatus false "" None].
Proof.
  unfold init.
  destruct (update_status_runs env (Some false) (Some "") None fresh)
    as [-> [-> [-> _]]].
  repeat split; reflexivity.
Qed.

(** X3.  Start-up.  The constructor leaves the daemon not recording, with
    an empty queue, and publishes active false, text empty, error null.
    When the model loads, [load_model] publishes nothing more and changes
    nothing.  When it does not, the error is published once, with active
    false and text empty, and the process leaves with code 1: whatever
    [run] would do next (the stream, the thread, the socket) is not
    done. *)
Theorem startup_publishes (env : Env) (err : string) (next : unit -> M unit) :
  (load env = None ->
   result (startup env) = Ret tt /\
   after (startup env) = fresh /\
   published (output (startup env)) = [mkStatus false "" None]) /\
  (load env = Some err ->
   result (startup env) = Exit 1%Z /\
   after (startup env) =
     mkState false [] (mkStatus false "" (Some err)) false /\
   published (output (startup env)) =
     [mkStatus false "" None; mkStatus false "" (Some err)] /\
   bind (load_model env) next fresh = load_model env fresh).
Proof.
  destruct (init_runs env) as [_ [A P]].
  unfold startup. unfold after, output in A, P.
  destruct (init env) as [[r0 d0] out0]. cbn [fst snd] in A, P. subst d0.
  split; intro L.
  - assert (E : exists w,
               load_model env fresh = (Ret tt, fresh, w) /\ published w = []).
    { unfold load_model. rewrite L. unfold_py. cbn.
      eexists; split; reflexivity. }
    destruct E as [w [E Pw]]. rewrite E.
    unfold result, after, output. cbn [fst snd].
    rewrite published_app, P, Pw. repeat split; reflexivity.
  - assert (E : exists w,
               load_model env fresh =
                 (Exit 1%Z,
                  mkState false [] (mkStatus false "" (Some err)) false, w)
               /\ published w = [mkStatus false "" (Some err)]).
    { unfold load_model. rewrite L. unfold_py. cbn.
      split_env; eexists; split; reflexivity. }
    destruct E as [w [E Pw]].
    unfold bind. rewrite E.
    unfold result, after, output. cbn [fst snd].
    rewrite published_app, P, Pw. repeat split; reflexivity.
Qed.

(** ** Connections *)

Lemma handle_connection_no_keys (env : Env) (r : outcome string) (d : State) :
  typed (output (handle_connection env r d)) = [].
Proof.
  destruct d as [a q st s].
  destruct r as [text|e|c]; unfold_py; cbn; try reflexivity.
  set (data := strip text).
  destruct (data =? "START")%string; cbn; [split_env; reflexivity|].
  destruct (data =? "STOP")%string; cbn; [split_env; reflexivity|].
  destruct (data =? "TOGGLE")%string; cbn; [split_env; reflexivity|].
  reflexivity.
Qed.

Ltac ends_in_close :=
  match goal with
  | |- exists out, ?l = (out ++ [Close])%list =>
      exists (removelast l); reflexivity
  end.

Lemma handle_connection_closes (env : Env) (text : string) (d : State) :
  result (handle_connection env (Ret text) d) = Ret tt /\
  exists out, output (handle_connection env (Ret text) d) = (out ++ [Close])%list.
Proof.
  destruct d as [a q st s]. unfold_py; cbn.
  set (data := strip text).
  destruct (data =? "START")%string; cbn.
  { split_env; (split; [reflexivity|]); ends_in_close. }
  destruct (data =? "STOP")%string; cbn.
  { split_env; (split; [reflexivity|]); ends_in_close. }
  destruct (data =? "TOGGLE")%string; cbn.
  { split_env; (split; [reflexivity|]); ends_in_close. }
  split; [reflexivity|]. ends_in_close.
Qed.

(** X4.  Whatever text arrives, handling the connection returns, so that
    the accept loop goes on, and the last thing it does is to close the
    connection.  When reading or decoding raises, the error is printed, the
    state is not touched, nothing is published and the connection is closed
    as well. *)
Theorem connection_always_closed (env : Env) (text e : string) (d : State) :
  result (handle_connection env (Ret text) d) = Ret tt /\
  (exists out,
     output (handle_connection env (Ret text) d) = (out ++ [Close])%list) /\
  handle_connection env (Raise e) d =
    (Ret tt, d, [Print ("Socket error: " ++ e); Close]).
Proof.
  destruct (handle_connection_closes env text d) as [R C].
  split; [exact R|]. split; [exact C|]. destruct d; reflexivity.
Qed.

Lemma handle_connection_rest (env : Env) (r : outcome string) (d : State) :
  stop_event (after (handle_connection env r d)) = stop_event d /\
  (audio_queue (after (handle_connection env r d)) = audio_queue d \/
   audio_queue (after (handle_connection env r d)) = []).
Proof.
  destruct d as [a q st s].
  destruct r as [text|e|c]; unfold_py; cbn; try (split; auto; fail).
  set (data := strip text).
  destruct (data =? "START")%string; cbn; [split_env; split; auto|].
  destruct (data =? "STOP")%string; cbn; [split_env; split; auto|].
  destruct (data =? "TOGGLE")%string; cbn; [split_env; split; auto|].
  split; auto.
Qed.

(** X5.  What a connection cannot do, whatever it carries: it never calls
    the engine, never types, publishes the status once at most, leaves the
    text and the error of the status and the stop flag as they were, and
    leaves the queue as it was or empty. *)
Theorem connection_frame (env : Env) (r : outcome string) (d : State) :
  invocations (output (handle_connection env r d)) = [] /\
  typed (output (handle_connection env r d)) = [] /\
  length (published (output (handle_connection env r d))) <= 1 /\
  st_text (status (after (handle_connection env r d))) = st_text (status d) /\
  st_error (status (after (handle_connection env r d))) =
    st_error (status d) /\
  stop_event (after (handle_connection env r d)) = stop_event d /\
  (audio_queue (after (handle_connection env r d)) = audio_queue d \/
   audio_queue (after (handle_connection env r d)) = []).
Proof.
  destruct (handle_connection_rest env r d) as [S Q].
  split; [apply handle_connection_quiet|].
  split; [apply handle_connection_no_keys|].
  destruct (handle_connection_status env r d) as [[-> ->] | [b [-> ->]]].
  - cbn. repeat split; auto.
  - destruct (merge_status_fields (status d) (Some b) None None)
      as [_ [-> ->]].
    cbn. repeat split; auto.
Qed.

(** X6.  How the commands compose.  START wipes out the command before it:
    the state after a command and a START is the state after the START
    alone.  Two TOGGLEs bring recording back where it was, with the queue
    emptied.  A TOGGLE after a STOP is a START, and a TOGGLE after a START
    is a STOP after that START. *)
Theorem commands_compose (env : Env) (c : Command) (d : State) :
  let cmd := fun c d => after (handle_connection env (Ret (token c)) d) in
  cmd START (cmd c d) = cmd START d /\
  active (cmd TOGGLE (cmd TOGGLE d)) = active d /\
  st_active (status (cmd TOGGLE (cmd TOGGLE d))) = active d /\
  audio_queue (cmd TOGGLE (cmd TOGGLE d)) = [] /\
  cmd TOGGLE (cmd STOP d) = cmd START d /\
  cmd TOGGLE (cmd START d) = cmd STOP (cmd START d).
Proof.
  cbv zeta.
  assert (S : forall x, after (handle_connection env (Ret (token START)) x) =
              mkState true []
                (mkStatus true (st_text (status x)) (st_error (status x)))
                (stop_event x)) by (intro x; apply handle_START).
  assert (P : forall x, after (handle_connection env (Ret (token STOP)) x) =
              mkState false (audio_queue x)
                (mkStatus false (st_text (status x)) (st_error (status x)))
                (stop_event x)) by (intro x; apply handle_STOP).
  assert (T : forall x, after (handle_connection env (Ret (token TOGGLE)) x) =
              mkState (negb (active x)) []
                (mkStatus (negb (active x)) (st_text (status x))
                          (st_error (status x)))
                (stop_event x)) by (intro x; apply handle_TOGGLE).
  split.
  - destruct c; rewrite ?S, ?P, ?T; reflexivity.
  - rewrite !T, !S, !P. cbn. rewrite !negb_involutive.
    repeat split; reflexivity.
Qed.

Lemma handle_connection_mirror (env : Env) (r : outcome string) (d : State) :
  st_active (status d) = active d ->
  st_active (status (after (handle_connection env r d))) =
    active (after (handle_connection env r d)).
Proof.
  destruct d as [a q st s]. cbn [status active]. intro H.
  destruct r as [text|e|c]; unfold_py; cbn; try exact H.
  set (data := strip text).
  destruct (data =? "START")%string; cbn; [split_env; reflexivity|].
  destruct (data =? "STOP")%string; cbn; [split_env; reflexivity|].
  destruct (data =? "TOGGLE")%string; cbn; [split_env; reflexivity|].
  exact H.
Qed.

Lemma step_mirror (env : Env) (ev : event) (w : World) :
  st_active (status (daemon w)) = active (daemon w) ->
  st_active (status (daemon (step env w ev))) = active (daemon (step env w ev)).
Proof.
  intro H. destruct ev as [r|b|]; cbn [step].
  - pose proof (handle_connection_mirror env r (daemon w) H) as M.
    unfold after in M.
    destruct (handle_connection env r (daemon w)) as [[o d'] out]. exact M.
  - rewrite audio_callback_runs. cbn [daemon].
    destruct (active (daemon w)) eqn:E;
      cbn [set_queue status active]; rewrite ?E; exact H.
  - unfold tick. destruct (scheduler w); try exact H.
    destruct (stop_event (daemon w)); [exact H|].
    pose proof (loop_body_flags env (daemon w)) as [F _].
    pose proof (loop_body_status env (daemon w)) as S.
    unfold after, output in F, S.
    destruct (loop_body env (daemon w)) as [[o d'] out]. cbn [fst snd] in F, S.
    assert (st_active (status d') = active d').
    { rewrite F. destruct S as [[-> _] | [t [-> _]]]; [exact H|].
      destruct (merge_status_fields (status (daemon w)) None (Some t) None)
        as [-> _]. exact H. }
    destruct o; assumption.
Qed.

(** X7.  The published flag follows the recording flag.  If the active
    field of the status equals recording, as it does once the constructor
    has run, it still does after any connections, deliveries and passes of
    the scheduler, in any order. *)
Theorem status_mirrors_recording (env : Env) (evs : list event) (w : World) :
  st_active (status (daemon w)) = active (daemon w) ->
  st_active (status (daemon (run_events env evs w))) =
    active (daemon (run_events env evs w)).
Proof.
  revert w. induction evs as [|ev evs IH]; intros w H; [exact H|].
  cbn [run_events fold_left]. apply IH, step_mirror, H.
Qed.

(** ** Whitespace around a token *)

Lemma strip_around_token (c : Command) (pre post : string) :
  blank pre = true -> blank post = true ->
  strip (pre ++ token c ++ post) = token c.
Proof.
  intros P Q. unfold strip. rewrite (lstrip_blank_app pre _ P).
  assert (L : lstrip (token c ++ post) = token c ++ post)
    by (destruct c; reflexivity).
  rewrite L, (rstrip_app_blank _ post Q). destruct c; reflexivity.
Qed.

(** X8.  A token with whitespace around it (a newline after it, say, as a
    shell sends it) is the token: the daemon does the same, with the same
    output, as for the bare token. *)
Theorem tokens_tolerate_whitespace (env : Env) (c : Command)
  (pre post : string) (d : State) :
  blank pre = true -> blank post = true ->
  handle_connection env (Ret (pre ++ token c ++ post)) d =
    handle_connection env (Ret (token c)) d.
Proof.
  intros P Q. apply handle_connection_strip.
  rewrite (strip_around_token c pre post P Q), strip_token. reflexivity.
Qed.

(** ** The scheduler on its own *)

Lemma transcription_loop_S (env : Env) (n : nat) (d : State) :
  transcription_loop env (S n) d =
    if stop_event d then (Ret Stopped, d, [])
    else
      match loop_body env d with
      | (Ret _, d1, w1) =>
          let '(r, d2, w2) := transcription_loop env n d1 in
          (r, d2, (w1 ++ w2)%list)
      | (Raise e, d1, w1) => (Raise e, d1, w1)
      | (Exit c, d1, w1) => (Exit c, d1, w1)
      end.
Proof.
  cbn [transcription_loop]. unfold bind at 1. unfold gets.
  destruct (stop_event d); [reflexivity|].
  unfold bind. destruct (loop_body env d) as [[[u|e|c] d1] w1]; try reflexivity.
  destruct (transcription_loop env n d1) as [[r d2] w2]. reflexivity.
Qed.

Lemma idle_loop_is_silent (env : Env) (fuel : nat) (d : State) :
  active d && (4 <=? length (audio_queue d)) = false ->
  invocations (output (transcription_loop env fuel d)) = [].
Proof.
  intro G. induction fuel as [|n IH]; [reflexivity|].
  rewrite transcription_loop_S. destruct (stop_event d); [reflexivity|].
  rewrite (loop_body_idle env d G).
  unfold output in *.
  destruct (transcription_loop env n d) as [[r d2] w2]. cbn [snd] in *.
  rewrite invocations_app, IH, app_nil_r.
  destruct (active d && negb (length (audio_queue d) =? 0)); reflexivity.
Qed.

(** X9.  Left alone with the state, the scheduler calls the engine once at
    most, however many passes it makes: a pass that calls the engine has
    emptied the queue first, and a pass that does not leaves the queue as
    it found it.  In particular no pass calls the engine right after
    another pass. *)
Theorem scheduler_alone_calls_once (env : Env) (fuel : nat) (d : State) :
  length (invocations (output (transcription_loop env fuel d))) <= 1 /\
  invocations (output (loop_body env (after (loop_body env d)))) = [].
Proof.
  split.
  - destruct fuel as [|n]; [cbn; lia|].
    rewrite transcription_loop_S. destruct (stop_event d); [cbn; lia|].
    destruct (active d && (4 <=? length (audio_queue d))) eqn:G.
    + apply andb_true_iff in G. destruct G as [A L].
      pose proof (loop_body_invokes env d) as I.
      pose proof (loop_body_drains env d A L) as Q.
      rewrite A, L in I. cbn [andb] in I. unfold output, after in *.
      destruct (loop_body env d) as [[[u|e|c] d1] w1]; cbn [fst snd] in *;
        try (rewrite I; cbn; lia).
      pose proof (idle_loop_is_silent env n d1) as S. unfold output in S.
      rewrite Q, andb_false_r in S.
      destruct (transcription_loop env n d1) as [[r d2] w2]. cbn [snd] in *.
      rewrite invocations_app, I, (S eq_refl). cbn. lia.
    + rewrite (loop_body_idle env d G).
      pose proof (idle_loop_is_silent env n d G) as S. unfold output in *.
      destruct (transcription_loop env n d) as [[r d2] w2]. cbn [snd] in *.
      rewrite invocations_app, S, app_nil_r.
      destruct (active d && negb (length (audio_queue d) =? 0)); cbn; lia.
  - rewrite loop_body_invokes.
    destruct (active d && (4 <=? length (audio_queue d))) eqn:G.
    + apply andb_true_iff in G. destruct G as [A L].
      rewrite (loop_body_drains env d A L), andb_false_r. reflexivity.
    + rewrite (loop_body_idle env d G). unfold after. cbn [fst snd].
      rewrite G. reflexivity.
Qed.

Lemma loop_body_returns (env : Env) (d : State) :
  (forall a, exists segments, transcribe env a = Ret segments) ->
  result (loop_body env d) = Ret tt.
Proof.
  intro H.
  destruct (active d && (4 <=? length (audio_queue d))) eqn:G.
  - apply andb_true_iff in G. destruct G as [A L].
    destruct (H (concatenate (audio_queue d))) as [segs T].
    destruct (truthy (heard segs)) eqn:Y.
    + rewrite (loop_body_text env d segs A L T Y). reflexivity.
    + rewrite (loop_body_silent env d segs A L T Y). reflexivity.
  - rewrite (loop_body_idle env d G). reflexivity.
Qed.

(** X10.  What ends [transcription_loop].  With the stop flag set it leaves
    at once, without a pass.  With the stop flag clear and an engine that
    always returns, it does not leave by itself: after any number of passes
    it is still going, and the stop flag is still clear. *)
Theorem loop_runs_until_stopped (env : Env) (fuel : nat) (d : State) :
  (stop_event d = true ->
   transcription_loop env (S fuel) d = (Ret Stopped, d, [])) /\
  (stop_event d = false ->
   (forall a, exists segments, transcribe env a = Ret segments) ->
   result (transcription_loop env fuel d) = Ret OutOfFuel /\
   stop_event (after (transcription_loop env fuel d)) = false).
Proof.
  split.
  - intro S. rewrite transcription_loop_S, S. reflexivity.
  - intros S H. revert d S. induction fuel as [|n IH]; intros d S.
    + split; [reflexivity | exact S].
    + rewrite transcription_loop_S, S.
      pose proof (loop_body_returns env d H) as R.
      pose proof (loop_body_flags env d) as [_ F].
      unfold result, after in *.
      destruct (loop_body env d) as [[o d1] w1]. cbn [fst snd] in R, F.
      subst o. rewrite S in F. specialize (IH d1 F).
      destruct (transcription_loop env n d1) as [[r d2] w2]. exact IH.
Qed.

Lemma not_in_tail (e : string) (o : option string) :
  ~ In Sleep (match o with
              | None => []
              | Some err => [Print (e ++ err)]
              end).
Proof. destruct o; cbn; intuition discriminate. Qed.

(** X11.  When a pass sleeps.  A pass of the scheduler sleeps exactly when
    recording is off or the queue is empty.  While recording with one to
    three chunks pending it does nothing at all, the sleep included: the
    loop then polls without a pause. *)
Theorem pass_sleeps_iff_idle (env : Env) (d : State) :
  (In Sleep (output (loop_body env d)) <->
   active d = false \/ audio_queue d = []) /\
  (active d = true -> 0 < length (audio_queue d) < 4 ->
   loop_body env d = (Ret tt, d, [])).
Proof.
  split.
  - destruct (active d && (4 <=? length (audio_queue d))) eqn:G.
    + apply andb_true_iff in G. destruct G as [A L].
      split.
      * intro S. exfalso. revert S.
        destruct (transcribe env (concatenate (audio_queue d)))
          as [segs|e|c] eqn:T.
        -- destruct (truthy (heard segs)) eqn:Y.
           ++ rewrite (loop_body_text env d segs A L T Y).
              unfold output. cbn [snd]. rewrite in_app_iff.
              intros [S | S].
              ** cbn in S. intuition discriminate.
              ** apply in_app_or in S. destruct S as [S | S].
                 --- revert S. apply not_in_tail.
                 --- cbn [In] in S. destruct S as [S | S];
                       [discriminate S|]. revert S. apply not_in_tail.
           ++ rewrite (loop_body_silent env d segs A L T Y). cbn.
              intuition discriminate.
        -- rewrite (loop_body_raise env d e A L T). cbn.
           intuition discriminate.
        -- rewrite (loop_body_exit env d c A L T). cbn.
           intuition discriminate.
      * intros [F | E]; [congruence|].
        rewrite E in L. discriminate L.
    + rewrite (loop_body_idle env d G). unfold output. cbn [snd].
      destruct (active d) eqn:A; cbn [andb] in *.
      * destruct (audio_queue d) as [|x q]; cbn.
        -- split; auto.
        -- split; [intros [] | intros [F | F]; discriminate F].
      * cbn. split; auto.
  - intros A [P L].
    rewrite loop_body_idle.
    + rewrite A. destruct (audio_queue d); [cbn in P; lia | reflexivity].
    + rewrite A. cbn [andb]. apply Nat.leb_gt, L.
Qed.

(** ** The queue as a queue *)

Lemma stage_blocks (env : Env) (bs : list (list Z)) (w : World)
  (q calls : list audio) :
  stage w q calls ->
  stage (run_events env (map Block bs) w) (q ++ map normalise bs) calls.
Proof.
  revert w q. induction bs as [|b bs IH]; intros w q H.
  - cbn. rewrite app_nil_r. exact H.
  - cbn [map run_events fold_left].
    apply (stage_block env b) in H. apply IH in H.
    rewrite <- app_assoc in H. exact H.
Qed.

(** X12.  A batch is everything that is pending.  While recording, when
    blocks have piled up (the engine was busy, say) so that four or more
    chunks are queued, the next pass hands all of them to the engine in one
    call, oldest first, and leaves the queue empty. *)
Theorem batch_is_everything_pending (env : Env) (bs : list (list Z))
  (w : World) (q calls : list audio) :
  stage w q calls ->
  4 <= length q + length bs ->
  invocations (log (run_events env (map Block bs ++ [Tick]) w)) =
    (calls ++ [concatenate (q ++ map normalise bs)])%list /\
  audio_queue (daemon (run_events env (map Block bs ++ [Tick]) w)) = [].
Proof.
  intros H L. rewrite run_events_app.
  apply (stage_blocks env bs) in H.
  apply (stage_tick_drain env) in H.
  - destruct H as [Q I]. split; [exact I | exact Q].
  - rewrite length_app, length_map. exact L.
Qed.

Lemma concat_snoc (q : list audio) (a : audio) :
  concat (q ++ [a]) = (concat q ++ a)%list.
Proof. rewrite concat_app. cbn. rewrite app_nil_r. reflexivity. Qed.

Lemma tick_conserves (env : Env) (w : World) :
  heard_and_pending (tick env w) = heard_and_pending w /\
  active (daemon (tick env w)) = active (daemon w).
Proof.
  unfold tick. destruct (scheduler w); try (split; reflexivity).
  destruct (stop_event (daemon w)); [split; reflexivity|].
  pose proof (loop_body_invokes env (daemon w)) as I.
  pose proof (loop_body_flags env (daemon w)) as [F _].
  assert (Q : audio_queue (after (loop_body env (daemon w))) =
              if active (daemon w) && (4 <=? length (audio_queue (daemon w)))
              then [] else audio_queue (daemon w)).
  { destruct (active (daemon w) && (4 <=? length (audio_queue (daemon w))))
      eqn:G.
    - apply andb_true_iff in G. destruct G as [A L].
      apply (loop_body_drains env _ A L).
    - rewrite (loop_body_idle env _ G). reflexivity. }
  unfold output, after in *.
  destruct (loop_body env (daemon w)) as [[o d'] out]. cbn [fst snd] in *.
  assert (E : (concat (invocations (log w ++ out)) ++ concat (audio_queue d')
               = heard_and_pending w)%list).
  { unfold heard_and_pending. rewrite invocations_app, concat_app, I, Q.
    destruct (active (daemon w) && (4 <=? length (audio_queue (daemon w)))).
    - cbn. rewrite !app_nil_r. reflexivity.
    - cbn. rewrite app_nil_r. reflexivity. }
  destruct o; unfold heard_and_pending; cbn [daemon log]; split; assumption.
Qed.

(** X13.  No sample is lost, doubled or moved while recording.  Through
    any deliveries and passes of the scheduler, with no connection in
    between, the samples given to the engine so far followed by the samples
    still pending are what they were before, followed by the samples of
    the delivered blocks in the order of delivery. *)
Theorem audio_is_conserved (env : Env) (evs : list event) (w : World) :
  active (daemon w) = true ->
  no_connection evs = true ->
  heard_and_pending (run_events env evs w) =
    (heard_and_pending w ++ concat (delivered evs))%list /\
  active (daemon (run_events env evs w)) = true.
Proof.
  revert w. induction evs as [|ev evs IH]; intros w A N.
  - cbn. rewrite app_nil_r. split; [reflexivity | exact A].
  - cbn [no_connection forallb] in N. apply andb_true_iff in N.
    destruct N as [N0 N]. cbn [run_events fold_left].
    destruct ev as [r|b|]; [discriminate N0| |].
    + assert (S : heard_and_pending (step env w (Block b)) =
                  (heard_and_pending w ++ normalise b)%list /\
                  active (daemon (step env w (Block b))) = true).
      { cbn [step]. rewrite audio_callback_runs, A.
        unfold heard_and_pending. cbn [daemon log set_queue audio_queue active].
        rewrite app_nil_r, concat_snoc, app_assoc. split; [reflexivity|exact A]. }
      destruct S as [S A']. destruct (IH _ A' N) as [E A''].
      unfold run_events in *. rewrite E, S.
      cbn [delivered flat_map]. rewrite concat_app. cbn [concat app].
      rewrite app_nil_r, app_assoc. split; [reflexivity | exact A''].
    + destruct (tick_conserves env w) as [S A'].
      assert (A2 : active (daemon (step env w Tick)) = true)
        by (cbn [step]; rewrite A'; exact A).
      destruct (IH _ A2 N) as [E A''].
      unfold run_events in *. rewrite E. cbn [step]. rewrite S.
      split; [reflexivity | exact A''].
Qed.

(** ** Samples *)

(** X14.  The conversion of a block keeps the number and the order of its
    frames, and sends every 16-bit frame into the interval from -1
    (included) to 1 (excluded): frame [s] becomes [s / 32768]. *)
Theorem normalise_in_unit_range (in_data : list Z) :
  Forall int16 in_data ->
  length (normalise in_data) = length in_data /\
  normalise in_data = map (fun s => (inject_Z s / 32768)%Q) in_data /\
  Forall (fun x => (-1 <= x)%Q /\ (x < 1)%Q) (normalise in_data).
Proof.
  intro H. unfold normalise. split; [apply length_map|]. split.
  - apply map_ext. intro s. unfold Qdiv, Qmult, Qinv, inject_Z. cbn.
    rewrite Z.mul_1_r. reflexivity.
  - apply Forall_map. revert H. apply Forall_impl.
    intros s [Lo Hi]. unfold Qle, Qlt. cbn [Qnum Qden]. split; lia.
Qed.

(** ** What is typed *)

(** X15.  Whatever the engine returns, a pass of the scheduler types one
    text at most, and a text that is typed is a text that is not empty and
    whose first and last characters are not whitespace, followed by one
    space. *)
Theorem typed_text_is_trimmed (env : Env) (d : State) (t : string) :
  length (typed (output (loop_body env d))) <= 1 /\
  (In t (typed (output (loop_body env d))) ->
   exists c r,
     t = String c r ++ " " /\
     isspace c = false /\ isspace (last_of c r) = false).
Proof.
  destruct (active d && (4 <=? length (audio_queue d))) eqn:G.
  - apply andb_true_iff in G. destruct G as [A L].
    destruct (transcribe env (concatenate (audio_queue d))) as [segs|e|c] eqn:T.
    + destruct (truthy (heard segs)) eqn:Y.
      * rewrite (loop_body_text env d segs A L T Y).
        unfold output. cbn [snd].
        assert (E : typed
                      ([Transcribe (concatenate (audio_queue d));
                        Print ("Transcribed: " ++ heard segs);
                        Wtype (heard segs ++ " ")] ++
                       match wtype env (heard segs ++ " ") with
                       | None => []
                       | Some err => [Print ("Failed to type text: " ++ err)]
                       end ++
                       Dump (merge_status (status d) None (Some (heard segs))
                               None)
                       :: match
                            write_status env
                              (merge_status (status d) None
                                 (Some (heard segs)) None)
                          with
                          | None => []
                          | Some err =>
                              [Print ("Failed to write status: " ++ err)]
                          end)%list = [heard segs ++ " "]).
        { rewrite !typed_app.
          destruct (wtype env _), (write_status env _); reflexivity. }
        rewrite E. split; [cbn; lia|].
        intros [<- | []].
        destruct (strip_trims (fold_left append segs "")) as (_ & _ & _ & _ & _ & C).
        fold (heard segs) in C. apply truthy_iff in Y.
        destruct (heard segs) as [|c r]; [contradiction|].
        cbn [ends_clean] in C. apply andb_true_iff in C.
        destruct C as [W0 W1].
        apply negb_true_iff in W0. apply negb_true_iff in W1.
        exists c, r. repeat split; assumption.
      * rewrite (loop_body_silent env d segs A L T Y).
        split; [cbn; lia | intros []].
    + rewrite (loop_body_raise env d e A L T).
      split; [cbn; lia | intros []].
    + rewrite (loop_body_exit env d c A L T).
      split; [cbn; lia | intros []].
  - rewrite (loop_body_idle env d G). unfold output. cbn [snd].
    destruct (active d && negb (length (audio_queue d) =? 0));
      (split; [cbn; lia | intros []]).
Qed.

(** ** The client *)

(** X16.  The arguments of the client.  Without an argument it prints its
    usage on standard output and leaves with code 1, without a socket call.
    With more than one argument it does what it does with the first. *)
Theorem client_arguments (net : Client.Net) (argv : list string)
  (prog arg : string) (more : list string) :
  (length argv < 2 ->
   Client.main net argv =
     (Exit 1%Z,
      [Client.Write Client.stdout "Usage: client.py [START|STOP|TOGGLE]"])) /\
  Client.main net (prog :: arg :: more) = Client.main net [prog; arg].
Proof.
  split; [|reflexivity].
  destruct argv as [|p [|a r]]; cbn [length]; intro H;
    [reflexivity | reflexivity | lia].
Qed.

(** X17.  What the exit code of the client says.  The command goes out on
    the socket, once, exactly when creating the socket, connecting and
    sending all return.  Code 0 means that it went out.  Code 1 does not
    mean that it did not: when closing the socket raises, the command has
    gone out and the client still reports a failure.  After a failure the
    client does not close the socket. *)
Theorem client_send_and_code (net : Client.Net) (cmd e : string) :
  (Client.sent (snd (Client.send_command net cmd)) = [cmd] <->
   Client.socket_err net = None /\ Client.connect_err net = None /\
   Client.sendall_err net = None) /\
  (Client.exit_code (Client.send_command net cmd) = 0%Z ->
   Client.sent (snd (Client.send_command net cmd)) = [cmd]) /\
  (Client.socket_err net = None -> Client.connect_err net = None ->
   Client.sendall_err net = None -> Client.close_err net = Some e ->
   Client.exit_code (Client.send_command net cmd) = 1%Z /\
   Client.sent (snd (Client.send_command net cmd)) = [cmd]) /\
  (failure net <> None ->
   ~ In Client.Close (snd (Client.send_command net cmd))).
Proof.
  destruct net as [[a|] [b|] [c|] [x|]]; cbn;
    repeat split; intros; try discriminate; try reflexivity;
    try tauto; try congruence;
    repeat match goal with
           | H : _ /\ _ |- _ => destruct H
           | H : _ \/ _ |- _ => destruct H
           end;
    try discriminate; try tauto;
    try (intuition discriminate).
Qed.

(** ** A command against the capture callback *)

(** X18.  The two steps of the callback, run one after the other, are
    [audio_callback].  For every order of these two steps with the two
    statements of a START or of a TOGGLE, recording ends as the command
    sets it, and the block is in the queue afterwards exactly when its
    append ran after the clear of the command and its test of recording
    passed, the test seeing recording as it was before the command when it
    ran before the assignment, and as the command sets it otherwise; in
    every other order the queue is empty. *)
Theorem command_against_delivery (d : State) (in_data : list Z)
  (tr : list stmt) :
  mem (run_stmts (CALLBACK_stmts in_data) (mkRacing d false)) =
    after (audio_callback in_data d) /\
  (In tr (merges START_stmts (CALLBACK_stmts in_data)) ->
   active (mem (run_stmts tr (mkRacing d false))) = true /\
   audio_queue (mem (run_stmts tr (mkRacing d false))) =
     if before is_clear is_append tr
        && (if before is_test is_assign tr then active d else true)
     then [normalise in_data] else []) /\
  (In tr (merges TOGGLE_stmts (CALLBACK_stmts in_data)) ->
   active (mem (run_stmts tr (mkRacing d false))) = negb (active d) /\
   audio_queue (mem (run_stmts tr (mkRacing d false))) =
     if before is_clear is_append tr
        && (if before is_test is_assign tr
            then active d else negb (active d))
     then [normalise in_data] else []).
Proof.
  destruct d as [a q st s]. split; [|split].
  - destruct a; reflexivity.
  - intro H. cbn in H.
    repeat (destruct H as [<- | H]; [destruct a; split; reflexivity|]).
    destruct H.
  - intro H. cbn in H.
    repeat (destruct H as [<- | H]; [destruct a; split; reflexivity|]).
    destruct H.
Qed.

(** ** The further properties at sample inputs *)

Lemma type_text_guarded_witness :
  result (type_text hostile_env "hi " fresh) = Ret tt /\
  output (type_text hostile_env "hi " fresh) =
    [Wtype "hi ";
     Print "Failed to type text: [Errno 2] No such file or directory: 'wtype'"].
Proof.
  destruct (type_text_guarded hostile_env "hi " fresh) as [_ H].
  destruct H as [A [_ [_ [_ [_ B]]]]]; [discriminate|].
  split; [exact A | exact B].
Defined.

Lemma write_failure_is_swallowed_witness :
  after (update_status hostile_env (Some true) None None fresh) =
    after (update_status quiet_env (Some true) None None fresh) /\
  output (update_status hostile_env (Some true) None None fresh) =
    [Dump (mkStatus true "" None);
     Print "Failed to write status: [Errno 13] Permission denied"].
Proof.
  destruct (write_failure_is_swallowed hostile_env quiet_env (Some true) None
              None fresh "[Errno 13] Permission denied" eq_refl eq_refl)
    as [_ [A [_ B]]].
  split; [exact A | exact B].
Defined.

Lemma startup_publishes_witness :
  published (output (startup quiet_env)) = [mkStatus false "" None] /\
  result (startup hostile_env) = Exit 1%Z /\
  published (output (startup hostile_env)) =
    [mkStatus false "" None; mkStatus false "" (Some "no such model")].
Proof.
  destruct (startup_publishes quiet_env "" (fun _ => ret tt)) as [A _].
  destruct (startup_publishes hostile_env "no such model"
              (fun _ => ret tt)) as [_ B].
  destruct (A eq_refl) as [_ [_ A3]].
  destruct (B eq_refl) as [B1 [_ [B3 _]]].
  repeat split; assumption.
Defined.

Lemma status_mirrors_recording_witness :
  st_active
    (status (daemon (run_events hello_env
                       [send TOGGLE; Block [1%Z]; Tick; send STOP;
                        Connection (Ret "nonsense"); send TOGGLE]
                       (mkWorld fresh Running [])))) =
  active
    (daemon (run_events hello_env
               [send TOGGLE; Block [1%Z]; Tick; send STOP;
                Connection (Ret "nonsense"); send TOGGLE]
               (mkWorld fresh Running []))).
Proof.
  apply (status_mirrors_recording hello_env
           [send TOGGLE; Block [1%Z]; Tick; send STOP;
            Connection (Ret "nonsense"); send TOGGLE]
           (mkWorld fresh Running [])).
  reflexivity.
Defined.

Lemma tokens_tolerate_whitespace_witness :
  handle_connection quiet_env
    (Ret (" " ++ token START ++ String (ascii_of_nat 10) "")) fresh =
  handle_connection quiet_env (Ret (token START)) fresh.
Proof.
  apply (tokens_tolerate_whitespace quiet_env START " "
           (String (ascii_of_nat 10) "") fresh); reflexivity.
Defined.

Lemma loop_runs_until_stopped_witness :
  transcription_loop quiet_env 3 (mkState true [] (mkStatus true "" None) true)
    = (Ret Stopped, mkState true [] (mkStatus true "" None) true, []) /\
  result (transcription_loop quiet_env 6 recording_four) = Ret OutOfFuel.
Proof.
  split.
  - apply (loop_runs_until_stopped quiet_env 2
             (mkState true [] (mkStatus true "" None) true)).
    reflexivity.
  - apply (loop_runs_until_stopped quiet_env 6 recording_four);
      [reflexivity|].
    intro a. exists []. reflexivity.
Defined.

Lemma pass_sleeps_iff_idle_witness :
  loop_body quiet_env
    (mkState true [normalise [1%Z]] (mkStatus true "" None) false) =
    (Ret tt, mkState true [normalise [1%Z]] (mkStatus true "" None) false, []).
Proof.
  apply (pass_sleeps_iff_idle quiet_env
           (mkState true [normalise [1%Z]] (mkStatus true "" None) false));
    [reflexivity | cbn; lia].
Defined.

Lemma batch_is_everything_pending_witness :
  invocations
    (log (run_events hello_env
            (map Block [[1%Z]; [2%Z]; [3%Z]; [4%Z]; [5%Z]; [6%Z]] ++ [Tick])
            (mkWorld (mkState true [] (mkStatus true "" None) false)
                     Running []))) =
    [map (fun s => Qmake s 32768) [1; 2; 3; 4; 5; 6]%Z].
Proof.
  apply (batch_is_everything_pending hello_env
           [[1%Z]; [2%Z]; [3%Z]; [4%Z]; [5%Z]; [6%Z]]
           (mkWorld (mkState true [] (mkStatus true "" None) false)
                    Running [])
           [] []).
  - repeat split; reflexivity.
  - cbn. lia.
Defined.

Lemma audio_is_conserved_witness :
  heard_and_pending
    (run_events hello_env [Block [5%Z]; Tick; Block [6%Z]; Tick; Block [7%Z]]
                (mkWorld recording_four Running [])) =
    map (fun s => Qmake s 32768) [1; 2; 3; 4; 5; 6; 7]%Z.
Proof.
  apply (audio_is_conserved hello_env
           [Block [5%Z]; Tick; Block [6%Z]; Tick; Block [7%Z]]
           (mkWorld recording_four Running [])); reflexivity.
Defined.

Lemma normalise_in_unit_range_witness :
  Forall (fun x => (-1 <= x)%Q /\ (x < 1)%Q)
         (normalise [(-32768)%Z; 0%Z; 32767%Z]).
Proof.
  apply (normalise_in_unit_range [(-32768)%Z; 0%Z; 32767%Z]).
  repeat constructor; discriminate.
Defined.

Lemma typed_text_is_trimmed_witness :
  exists c r,
    "hello world " = String c r ++ " " /\
    isspace c = false /\ isspace (last_of c r) = false.
Proof.
  apply (typed_text_is_trimmed padded_env recording_four "hello world ").
  cbn. left. reflexivity.
Defined.

Lemma client_arguments_witness :
  Client.exit_code (Client.main listening ["client.py"]) = 1%Z /\
  Client.sent (snd (Client.main listening ["client.py"])) = [].
Proof.
  destruct (client_arguments listening ["client.py"] "" "" []) as [H _].
  rewrite H; [split; reflexivity | cbn; lia].
Defined.

Lemma client_send_and_code_witness :
  Client.exit_code (Client.send_command close_fails "STOP") = 1%Z /\
  Client.sent (snd (Client.send_command close_fails "STOP")) = ["STOP"] /\
  ~ In Client.Close (snd (Client.send_command refused "STOP")) /\
  Client.sent (snd (Client.send_command listening "STOP")) = ["STOP"].
Proof.
  destruct (client_send_and_code close_fails "STOP"
              "[Errno 9] Bad file descriptor") as [_ [_ [A _]]].
  destruct (client_send_and_code refused "STOP" "") as [_ [_ [_ B]]].
  destruct (client_send_and_code listening "STOP" "") as [_ [C _]].
  destruct (A eq_refl eq_refl eq_refl eq_refl) as [A1 A2].
  split; [exact A1|]. split; [exact A2|]. split.
  - apply B. discriminate.
  - apply C. reflexivity.
Defined.

Lemma command_against_delivery_witness :
  (active
     (mem (run_stmts [TestActive; InvertActive; ClearQueue;
                      AppendTested [7%Z]]
                     (mkRacing recording_four false))) = false /\
   audio_queue
     (mem (run_stmts [TestActive; InvertActive; ClearQueue;
                      AppendTested [7%Z]]
                     (mkRacing recording_four false))) =
     [normalise [7%Z]]) /\
  audio_queue
    (mem (run_stmts [SetActive true; TestActive; AppendTested [7%Z];
                     ClearQueue]
                    (mkRacing fresh false))) = [].
Proof.
  destruct (command_against_delivery recording_four [7%Z]
              [TestActive; InvertActive; ClearQueue; AppendTested [7%Z]])
    as [_ [_ B]].
  destruct (command_against_delivery fresh [7%Z]
              [SetActive true; TestActive; AppendTested [7%Z]; ClearQueue])
    as [_ [A _]].
  split.
  - apply B. cbn. auto 10.
  - apply A. cbn. auto 10.
Defined.
